(** * RO_Vie: the generational controller of the memetic flow-shop heuristic

    Shallow embedding of [src/src/memetic.py] (the parameterised controller
    with restarts and statistics) and of [src/memetic.py] (the earlier
    controller, module [Legacy]), followed by the properties of the
    controller that the specification states.

    Conventions of the embedding.
    - Python numbers ([int], [float], [bool]) that travel through the
      [parameters] dictionary and the wall clock are rationals ([Q]);
      [True] is 1 and [False] is 0.  The arithmetic on the clock is exact.
      The product [len(population) * preserved_prop] is the binary64 product
      of Python: [preserved_prop] stands for the float of that value (an
      [int] 0 or 1 gives the same result for fewer than [2 ^ 53] schedules);
      an infinity or a NaN in the dictionary is outside the embedding.
    - Durations ([sched.duree()]), generation indices and list sizes are
      integers ([Z]).
    - A schedule is a value: [duree] is a function of it (section 3 of the
      specification: schedules are never mutated in place).
    - Everything that reads the clock, draws random numbers or may raise is
      a computation in the monad [M]: it takes the state of the world and
      returns either an exception or a result with the next world.
    - The modules [initial_population], [mutation], [local_search],
      [solution_crossover], [population_statistics] and [convergence] are
      not part of the verified sources; they are the fields of the interface
      [Ops] (resp. [Legacy.Ops]) and every theorem holds for all of their
      implementations, under the contracts it names. *)

From Stdlib Require Import ZArith QArith Qround Lqa Lia List Sorted Permutation.
From stdpp Require Import base relations list sorting strings gmap.

Local Open Scope Z_scope.

(** ** Python primitives *)

(** Exceptions that the controller can raise itself, and the failure of a
    collaborator. *)
Inductive Exn : Type :=
  | KeyError (key : string)
  | ValueError
  | IndexError
  | OverflowError
  | OperatorFailure (what : string).

Inductive Result (A : Type) : Type :=
  | Ok (a : A)
  | Raise (e : Exn).
Arguments Ok {A} a.
Arguments Raise {A} e.

(** [x < y] on Python numbers. *)
Definition Qltb (x y : Q) : bool := negb (Qle_bool y x).

(** [int(x)]: truncation towards zero. *)
Definition py_int (x : Q) : Z := Z.quot (Qnum x) (Zpos (Qden x)).

(** The value of a float that is not a NaN. *)
Inductive float : Type :=
  | Finite (value : Q)
  | Infinity (negative : bool).

(** The integer nearest to [a / b], for [0 <= a] and [0 < b]; the even one
    of the two when [a / b] is halfway between them. *)
Definition round_half_even (a b : Z) : Z :=
  let q := a / b in
  match 2 * (a mod b) ?= b with
  | Lt => q
  | Eq => if Z.even q then q else q + 1
  | Gt => q + 1
  end.

(** [floor (log2 (n / d))] for positive [n] and [d]. *)
Definition ilog2 (n d : Z) : Z :=
  let c := Z.log2 n - Z.log2 d in
  if d * 2 ^ Z.max 0 c <=? n * 2 ^ Z.max 0 (- c) then c else c - 1.

(** The binary64 number nearest to [n / d], for positive [n] and [d]: a
    multiple [m * 2 ^ e] of the unit in the last place of [n / d], with 53
    bits and an exponent [e] of -1074 at least; infinity from [2 ^ 1024]. *)
Definition round_positive (n d : Z) : float :=
  let e := Z.max (ilog2 n d - 52) (- 1074) in
  let m := round_half_even (n * 2 ^ Z.max 0 (- e)) (d * 2 ^ Z.max 0 e) in
  if 2 ^ 1024 * 2 ^ Z.max 0 (- e) <=? m * 2 ^ Z.max 0 e
  then Infinity false
  else Finite (m * 2 ^ Z.max 0 e # Z.to_pos (2 ^ Z.max 0 (- e))).

Definition float_opp (x : float) : float :=
  match x with
  | Finite q => Finite (- q)
  | Infinity s => Infinity (negb s)
  end.

(** The binary64 number nearest to a rational, ties to even: what Python
    makes of a literal, of [float(n)] and of the exact result of an
    operation on floats. *)
Definition binary64 (x : Q) : float :=
  let r := Qred x in
  match Qnum r with
  | Z0 => Finite 0
  | Zpos n => round_positive (Zpos n) (Zpos (Qden r))
  | Zneg n => float_opp (round_positive (Zpos n) (Zpos (Qden r)))
  end.

(** [int(n * x)] for an [int] [n] and a float of value [x]: [n] is
    converted to a float, the product is rounded, and [int] truncates it;
    the conversion of [n] and [int] raise [OverflowError] on an infinity. *)
Definition int_of_product (n : Z) (x : Q) : Result Z :=
  match binary64 (inject_Z n) with
  | Infinity _ => Raise OverflowError
  | Finite fn =>
      match binary64 (fn * x) with
      | Infinity _ => Raise OverflowError
      | Finite product => Ok (py_int product)
      end
  end.

(** [len(l)]. *)
Definition len {A} (l : list A) : Z := Z.of_nat (length l).

(** [l[:k]], with Python's meaning of a negative bound. *)
Definition slice_to {A} (l : list A) (k : Z) : list A :=
  if 0 <=? k then take (Z.to_nat k) l else take (Z.to_nat (len l + k)) l.

(** [sorted(l, key=key, reverse=False)]: the stable ascending sort. *)
Fixpoint insert_by {A} (key : A -> Z) (x : A) (l : list A) : list A :=
  match l with
  | [] => [x]
  | y :: t => if key x <=? key y then x :: y :: t else y :: insert_by key x t
  end.

Fixpoint sorted_by {A} (key : A -> Z) (l : list A) : list A :=
  match l with
  | [] => []
  | x :: t => insert_by key x (sorted_by key t)
  end.

(** [min(l, key=key)]: the first element of least key; [ValueError] on the
    empty list. *)
Fixpoint min_from {A} (key : A -> Z) (best : A) (l : list A) : A :=
  match l with
  | [] => best
  | x :: t => min_from key (if key x <? key best then x else best) t
  end.

Definition min_by {A} (key : A -> Z) (l : list A) : Result A :=
  match l with
  | [] => Raise ValueError
  | x :: t => Ok (min_from key x t)
  end.

(** [max(l)] on numbers: the first element of greatest value. *)
Fixpoint max_from (best : Z) (l : list Z) : Z :=
  match l with
  | [] => best
  | x :: t => max_from (if best <? x then x else best) t
  end.

Definition py_min (l : list Z) : Result Z := min_by (fun x => x) l.

Definition py_max (l : list Z) : Result Z :=
  match l with
  | [] => Raise ValueError
  | x :: t => Ok (max_from x t)
  end.

(** ** The monad of effectful computations *)

Definition M (W A : Type) : Type := W -> Result (A * W).

Definition ret {W A} (a : A) : M W A := fun w => Ok (a, w).

Definition bind {W A B} (m : M W A) (k : A -> M W B) : M W B :=
  fun w => match m w with
           | Ok (a, w') => k a w'
           | Raise e => Raise e
           end.

Definition raise {W A} (e : Exn) : M W A := fun _ => Raise e.

(** A computation without effect on the world that may raise. *)
Definition lift {W A} (r : Result A) : M W A :=
  fun w => match r with
           | Ok a => Ok (a, w)
           | Raise e => Raise e
           end.

Declare Scope py_scope.
Delimit Scope py_scope with py.
Notation "x <- m ;; k" := (bind m (fun x => k))
  (at level 100, m at next level, right associativity) : py_scope.

(** [parameters[key]]. *)
Definition getitem {W} (parameters : gmap string Q) (key : string) : M W Q :=
  fun w => match parameters !! key with
           | Some v => Ok (v, w)
           | None => Raise (KeyError key)
           end.

(** Truth value of a Python number. *)
Definition truthy (x : Q) : bool := negb (Qeq_bool x 0).

(** ** Schedules, problem instances and the world *)

(** What both controllers need of a schedule ([Ordonnancement]), of the
    problem instance and of the machine: [duree] is [sched.duree()] and
    [time] is [time.time()], in seconds. *)
Class Base : Type := {
  Sched : Type;
  Flowshop : Type;
  World : Type;
  duree : Sched -> Z;
  time : World -> Q * World
}.

(** [time.time()] as a computation. *)
Definition time_time `{Base} : M World Q := fun w => Ok (time w).

(** One entry of the statistics: the tuple [(mean, min, max)]. *)
Definition Stats : Type := Q * Z * Z.

(** [statistics[1]]. *)
Definition item1 (s : Stats) : Z := snd (fst s).

(** * The controller of [src/src/memetic.py] *)

(** The collaborators it imports, with the arguments in the order of their
    calls. *)
Class Ops `{Base} : Type := {
  Neighbors : Type;
  Threshold : Type;
  create_swap_neighbors : Flowshop -> M World Neighbors;
  create_insert_neighbors : Flowshop -> M World Neighbors;
  initialize_threshold : Q -> M World Threshold;
  (* initial_pop(flowshop, random_prop, deter_prop, best_deter, pop_init_size) *)
  initial_pop : Flowshop -> Q -> Q -> Q -> Q -> M World (list Sched);
  (* random_initial_pop(flowshop, size) *)
  random_initial_pop : Flowshop -> Z -> M World (list Sched);
  (* crossover(flowshop, population, cross_1_point_prob, cross_2_points_prob,
               cross_position_prob, gentrification) *)
  crossover : Flowshop -> list Sched -> Q -> Q -> Q -> Q -> M World (list Sched);
  (* mutation(flowshop, population, mutation_swap_probability,
              mutation_insert_probability) *)
  mutation : Flowshop -> list Sched -> Q -> Q -> M World (list Sched);
  (* local_search(population, maximum_nb_iterations, local_search_swap_prob,
                  local_search_insert_prob, max_neighbors_nb, swap_neighbors,
                  insert_neighbors, nb_sched) *)
  local_search : list Sched -> Q -> Q -> Q -> Q -> Neighbors -> Neighbors -> Q ->
                 M World (list Sched);
  population_statistics : list Sched -> M World Stats;
  is_convergent : list Sched -> Threshold -> M World bool
}.

Section Controller.
Context `{ops : Ops}.
Local Open Scope py_scope.

Definition update_population (population : list Sched) (flowshop : Flowshop)
    (parameters : gmap string Q) (swap_neighbors insert_neighbors : Neighbors)
    : M World (list Sched) :=
  c1 <- getitem parameters "cross_1_point_prob" ;;
  c2 <- getitem parameters "cross_2_points_prob" ;;
  cp <- getitem parameters "cross_position_prob" ;;
  g <- getitem parameters "gentrification" ;;
  population <- crossover flowshop population c1 c2 cp g ;;
  ms <- getitem parameters "mut_swap_prob" ;;
  mi <- getitem parameters "mut_insert_prob" ;;
  population <- mutation flowshop population ms mi ;;
  use_ls <- getitem parameters "use_ls" ;;
  if truthy use_ls then
    it <- getitem parameters "ls_max_iterations" ;;
    sp <- getitem parameters "ls_swap_prob" ;;
    ip <- getitem parameters "ls_insert_prob" ;;
    mn <- getitem parameters "max_neighbors_nb" ;;
    nb <- getitem parameters "ls_subset_size" ;;
    local_search population it sp ip mn swap_neighbors insert_neighbors nb
  else ret population.

Definition extract_best_from_population (population : list Sched)
    (preserved_size : Z) : list Sched :=
  let sorted_list := sorted_by duree population in
  slice_to sorted_list preserved_size.

Definition restart_population (population : list Sched) (flowshop : Flowshop)
    (preserved_prop : Q) : M World (list Sched) :=
  preserved_size <- lift (int_of_product (len population) preserved_prop) ;;
  let random_size := len population - preserved_size in
  let best := extract_best_from_population population preserved_size in
  fresh <- random_initial_pop flowshop random_size ;;
  ret (best ++ fresh).

(** The local variables of [memetic_heuristic] that live across the
    iterations of its loop. *)
Record Locals : Type := mkLocals {
  start_time : Q;
  swap_neighbors : Neighbors;
  insert_neighbors : Neighbors;
  entropy_threshold : Threshold;
  population : list Sched;
  list_statistics : list Stats;
  overall_best_scheduling : Sched;
  iterations_where_restart : list Z;
  index : Z;
  iteration_time : Q
}.

(** Lines 83 to 97: everything before the loop. *)
Definition prologue (flowshop : Flowshop) (parameters : gmap string Q)
    : M World Locals :=
  start_time <- time_time ;;
  swap_neighbors <- create_swap_neighbors flowshop ;;
  insert_neighbors <- create_insert_neighbors flowshop ;;
  n <- getitem parameters "pop_init_size" ;;
  entropy_threshold <- initialize_threshold n ;;
  rp <- getitem parameters "random_prop" ;;
  dp <- getitem parameters "deter_prop" ;;
  bd <- getitem parameters "best_deter" ;;
  n <- getitem parameters "pop_init_size" ;;
  population <- initial_pop flowshop rp dp bd n ;;
  initial_statistics <- population_statistics population ;;
  overall_best_scheduling <- lift (min_by duree population) ;;
  ret (mkLocals start_time swap_neighbors insert_neighbors entropy_threshold
         population [initial_statistics] overall_best_scheduling [] 0 0%Q).

(** Line 98: the test of the loop.  The left operand is evaluated before
    the right one. *)
Definition loop_test (parameters : gmap string Q) (s : Locals) : M World bool :=
  t <- time_time ;;
  time_limit <- getitem parameters "time_limit" ;;
  ret (Qltb (t - start_time s + iteration_time s + 1)%Q (60 * time_limit)%Q).

(** The list [[list_statistics[k][1] for k in range(max(0, n - 10), n)]]
    with [n = len(list_statistics)]. *)
Definition window (list_statistics : list Stats) : list Z :=
  item1 <$> drop (Z.to_nat (Z.max 0 (len list_statistics - 10))) list_statistics.

(** Lines 109 to 114: the value of [restart] before the convergence test.
    [and] and [or] evaluate their right operand only when needed. *)
Definition stagnation (list_statistics : list Stats)
    (iterations_where_restart : list Z) (index : Z) : Result bool :=
  if len list_statistics >? 9 then
    if match last iterations_where_restart with
       | None => true (* iterations_where_restart == [] *)
       | Some r => index >=? r + 10
       end
    then
      match py_min (window list_statistics), py_max (window list_statistics) with
      | Ok lo, Ok hi => Ok (lo =? hi)
      | Raise e, _ => Raise e
      | _, Raise e => Raise e
      end
    else Ok false
  else Ok false.

(** Lines 99 to 121: one iteration of the loop. *)
Definition iteration (flowshop : Flowshop) (parameters : gmap string Q)
    (s : Locals) : M World Locals :=
  let index := index s + 1 in
  start_time_iteration <- time_time ;;
  population <- update_population (population s) flowshop parameters
                  (swap_neighbors s) (insert_neighbors s) ;;
  best_sched <- lift (min_by duree population) ;;
  let overall_best_scheduling :=
    if duree (overall_best_scheduling s) >? duree best_sched
    then best_sched else overall_best_scheduling s in
  statistics <- population_statistics population ;;
  let list_statistics := list_statistics s ++ [statistics] in
  restart <- lift (stagnation list_statistics (iterations_where_restart s) index) ;;
  convergent <- is_convergent population (entropy_threshold s) ;;
  if convergent || restart then
    let iterations_where_restart := iterations_where_restart s ++ [index] in
    preserved_prop <- getitem parameters "preserved_prop" ;;
    population <- restart_population population flowshop preserved_prop ;;
    t <- time_time ;;
    ret (mkLocals (start_time s) (swap_neighbors s) (insert_neighbors s)
           (entropy_threshold s) population list_statistics
           overall_best_scheduling iterations_where_restart index
           (t - start_time_iteration)%Q)
  else
    t <- time_time ;;
    ret (mkLocals (start_time s) (swap_neighbors s) (insert_neighbors s)
           (entropy_threshold s) population list_statistics
           overall_best_scheduling (iterations_where_restart s) index
           (t - start_time_iteration)%Q).

(** What [memetic_heuristic] returns. *)
Definition RunResult : Type := list Stats * Sched * list Z.

Definition result_of (s : Locals) : RunResult :=
  (list_statistics s, overall_best_scheduling s, iterations_where_restart s).

(** The [while] loop, unfolded at most [fuel] times: [None] when the test
    still holds after [fuel] iterations. *)
Fixpoint while_loop (fuel : nat) (flowshop : Flowshop)
    (parameters : gmap string Q) (s : Locals) : M World (option Locals) :=
  match fuel with
  | O => ret None
  | S fuel' =>
      go <- loop_test parameters s ;;
      if go then
        s' <- iteration flowshop parameters s ;;
        while_loop fuel' flowshop parameters s'
      else ret (Some s)
  end.

Definition memetic_heuristic (fuel : nat) (flowshop : Flowshop)
    (parameters : gmap string Q) : M World (option RunResult) :=
  s <- prologue flowshop parameters ;;
  r <- while_loop fuel flowshop parameters s ;;
  ret (result_of <$> r).

End Controller.

(** One generation of the run: from the locals and the world before the
    test of the loop to those at the end of the iteration. *)
Definition generation `{Ops} (flowshop : Flowshop) (parameters : gmap string Q)
    (c c' : Locals * World) : Prop :=
  exists w, loop_test parameters c.1 c.2 = Ok (true, w) /\
            iteration flowshop parameters c.1 w = Ok c'.

(** The stagnation test of the generation that leads from [s] to [s']
    answered [True]. *)
Definition stagnation_fired `{Ops} (s s' : Locals) : Prop :=
  stagnation (list_statistics s') (iterations_where_restart s) (index s') = Ok true.

(** The restarts recorded so far are in increasing order and none is
    later than the current generation. *)
Definition restarts_in_order `{Ops} (s : Locals) : Prop :=
  StronglySorted Z.lt (iterations_where_restart s) /\
  Forall (fun r => r <= index s) (iterations_where_restart s).

(** The ways in which the prologue of [memetic_heuristic] (lines 83 to 97)
    raises [e] without a missing parameter: one of the five collaborators
    that it calls raised [e], or [initial_pop] returned an empty population
    and [min] raised [ValueError] on it. *)
Definition prologue_failure `{Ops} (flowshop : Flowshop) (e : Exn) : Prop :=
  (exists w, create_swap_neighbors flowshop w = Raise e) \/
  (exists w, create_insert_neighbors flowshop w = Raise e) \/
  (exists n w, initialize_threshold n w = Raise e) \/
  (exists rp dp bd n w, initial_pop flowshop rp dp bd n w = Raise e) \/
  (exists population w, population_statistics population w = Raise e) \/
  (e = ValueError /\
   exists rp dp bd n w w', initial_pop flowshop rp dp bd n w = Ok ([], w')).

(** * The controller of [src/memetic.py] *)

Module Legacy.

Class Ops `{Base} : Type := {
  nombre_machines : Flowshop -> Z;
  (* the constructor Ordonnancement(nb_machines) *)
  Ordonnancement : Z -> Sched;
  random_initial_pop : Flowshop -> M World (list Sched);
  crossing : Flowshop -> list Sched -> M World (list Sched);
  mutation : list Sched -> M World (list Sched);
  local_search : list Sched -> M World (list Sched)
}.

Section Controller.
Context `{ops : Ops}.
Local Open Scope py_scope.

Fixpoint find_best_from (best_ordo : Sched) (list_ordo : list Sched) : Sched :=
  match list_ordo with
  | [] => best_ordo
  | ordo :: t =>
      find_best_from (if duree ordo <? duree best_ordo then ordo else best_ordo) t
  end.

(** [list_ordo[0]] raises [IndexError] on the empty list. *)
Definition find_best_ordo_in_list (list_ordo : list Sched) : Result Sched :=
  match list_ordo with
  | [] => Raise IndexError
  | first :: _ => Ok (find_best_from first list_ordo)
  end.

Record Locals : Type := mkLocals {
  start_time : Q;
  best_ordo : Sched;
  population : list Sched;
  iteration_time : Q
}.

Definition prologue (flowshop : Flowshop) : M World Locals :=
  start_time <- time_time ;;
  let best_ordo := Ordonnancement (nombre_machines flowshop) in
  population <- random_initial_pop flowshop ;;
  ret (mkLocals start_time best_ordo population 0%Q).

Definition loop_test (s : Locals) : M World bool :=
  t <- time_time ;;
  ret (Qltb (t - start_time s + iteration_time s)%Q (60 * 10)%Q).

Definition iteration (flowshop : Flowshop) (s : Locals) : M World Locals :=
  start_time_iteration <- time_time ;;
  population <- crossing flowshop (population s) ;;
  population <- mutation population ;;
  population <- local_search population ;;
  best_ordo <- lift (find_best_ordo_in_list population) ;;
  t <- time_time ;;
  ret (mkLocals (start_time s) best_ordo population (t - start_time_iteration)%Q).

Fixpoint while_loop (fuel : nat) (flowshop : Flowshop) (s : Locals)
    : M World (option Locals) :=
  match fuel with
  | O => ret None
  | S fuel' =>
      go <- loop_test s ;;
      if go then
        s' <- iteration flowshop s ;;
        while_loop fuel' flowshop s'
      else ret (Some s)
  end.

Definition memetic_heuristic (fuel : nat) (flowshop : Flowshop)
    : M World (option Sched) :=
  s <- prologue flowshop ;;
  r <- while_loop fuel flowshop s ;;
  ret (best_ordo <$> r).

End Controller.

Definition generation `{Ops} (flowshop : Flowshop) (c c' : Locals * World) : Prop :=
  exists w, loop_test c.1 c.2 = Ok (true, w) /\ iteration flowshop c.1 w = Ok c'.

End Legacy.

(** The locals and the world after [n] further generations, when the run
    gets that far. *)
Fixpoint after `{Ops} (n : nat) (flowshop : Flowshop) (parameters : gmap string Q)
    (c : Locals * World) : option (Locals * World) :=
  match n with
  | O => Some c
  | S n' =>
      match loop_test parameters c.1 c.2 with
      | Ok (true, w) =>
          match iteration flowshop parameters c.1 w with
          | Ok c' => after n' flowshop parameters c'
          | Raise _ => None
          end
      | _ => None
      end
  end.

(** * Concrete collaborators

    A small world on which the controllers can be run: a schedule is its
    own duration, the clock advances by 119.9 seconds at every reading, and
    the operators are deterministic. *)

Definition demo_base : Base := {|
  Sched := Z;
  Flowshop := unit;
  World := Q;
  duree := fun s => s;
  time := fun w => (w, (w + (1199 # 10))%Q)
|}.

Section Demo.
Local Existing Instance demo_base.

(** Statistics of a list of durations. *)
Definition demo_statistics (l : list Z) : Stats :=
  match l with
  | [] => (0%Q, 0, 0)
  | x :: t =>
      ((inject_Z (fold_right Z.add 0%Z l) / inject_Z (len l))%Q,
       min_from (fun d => d) x t, max_from x t)
  end.

(** Operators that create schedules of duration 100, 101, ..., draw fresh
    schedules of duration 1000, add [delta] to every duration at each
    mutation, and answer [convergent] to the convergence test. *)
Definition demo_ops (convergent : bool) (delta : Z) : Ops := {|
  Neighbors := unit;
  Threshold := unit;
  create_swap_neighbors := fun _ => ret tt;
  create_insert_neighbors := fun _ => ret tt;
  initialize_threshold := fun _ => ret tt;
  initial_pop := fun _ _ _ _ n =>
    ret (Z.of_nat <$> seq 100 (Z.to_nat (py_int n)));
  random_initial_pop := fun _ n => ret (replicate (Z.to_nat n) 1000);
  crossover := fun _ population _ _ _ _ => ret population;
  mutation := fun _ population _ _ => ret (Z.add delta <$> population);
  local_search := fun population _ _ _ _ _ _ _ => ret population;
  population_statistics := fun population => ret (demo_statistics population);
  is_convergent := fun _ _ => ret convergent
|}.

(** A complete bundle of parameters, with the given time limit (in
    minutes), population size and preserved proportion. *)
Definition demo_parameters (time_limit pop_init_size preserved_prop : Q)
    : gmap string Q :=
  list_to_map
    [("random_prop", 1%Q); ("deter_prop", 0%Q); ("best_deter", 0%Q);
     ("pop_init_size", pop_init_size); ("time_limit", time_limit);
     ("cross_1_point_prob", 1 # 3); ("cross_2_points_prob", 1 # 3);
     ("cross_position_prob", 1 # 3); ("gentrification", 1%Q);
     ("mut_swap_prob", 1 # 2); ("mut_insert_prob", 1 # 2);
     ("preserved_prop", preserved_prop); ("ls_max_iterations", 10%Q);
     ("ls_swap_prob", 1 # 2); ("ls_insert_prob", 1 # 2);
     ("max_neighbors_nb", 5%Q); ("use_ls", 1%Q); ("ls_subset_size", 2%Q)].

(** Collaborators of the earlier controller: one schedule of duration 5 to
    start with, and a mutation that adds [delta] to every duration. *)
Definition demo_legacy_ops (delta : Z) : Legacy.Ops := {|
  Legacy.nombre_machines := fun _ => 3;
  Legacy.Ordonnancement := fun _ => 0;
  Legacy.random_initial_pop := fun _ => ret [5];
  Legacy.crossing := fun _ population => ret population;
  Legacy.mutation := fun population => ret (Z.add delta <$> population);
  Legacy.local_search := fun population => ret population
|}.

(** The clock of this world after [k] readings, from 0. *)
Definition demo_clock (k : nat) : Q :=
  Nat.iter k (fun w => (w + (1199 # 10))%Q) 0%Q.

(** The locals and the world after [n] generations of a run that starts
    when the clock is at 0: the prologue reads the clock once and every
    generation three times, the iteration between the second and the third
    of its readings. *)
Definition demo_state (convergent : bool) (delta : Z) (population : list Z)
    (list_statistics : list Stats) (overall_best_scheduling : Z)
    (iterations_where_restart : list Z) (n : nat)
    : @Locals demo_base (demo_ops convergent delta) * Q :=
  (@mkLocals demo_base (demo_ops convergent delta) 0%Q tt tt tt population
     list_statistics overall_best_scheduling iterations_where_restart (Z.of_nat n)
     match n with
     | O => 0%Q
     | S _ => (demo_clock (3 * n) - demo_clock (3 * n - 1))%Q
     end,
   demo_clock (3 * n + 1)).

(** The same for the earlier controller. *)
Definition demo_legacy_state (delta : Z) (best_ordo : Z) (population : list Z)
    (n : nat) : @Legacy.Locals demo_base * Q :=
  (@Legacy.mkLocals demo_base 0%Q best_ordo population
     match n with
     | O => 0%Q
     | S _ => (demo_clock (3 * n) - demo_clock (3 * n - 1))%Q
     end,
   demo_clock (3 * n + 1)).

End Demo.

(** * Properties of the Python primitives *)

Section Primitives.
Context {A : Type} (key : A -> Z).

Definition key_le (a b : A) : Prop := key a <= key b.

Lemma insert_by_perm x l : insert_by key x l ≡ₚ x :: l.
Proof.
  induction l as [|y t IH]; simpl; [done|].
  destruct (key x <=? key y); [done|].
  rewrite IH. apply Permutation_swap.
Qed.

Lemma sorted_by_perm l : sorted_by key l ≡ₚ l.
Proof.
  induction l as [|x t IH]; simpl; [done|].
  by rewrite insert_by_perm, IH.
Qed.

Lemma sorted_by_length l : length (sorted_by key l) = length l.
Proof. by rewrite (Permutation_length (sorted_by_perm l)). Qed.

Lemma insert_by_sorted x l :
  StronglySorted key_le l -> StronglySorted key_le (insert_by key x l).
Proof.
  induction 1 as [|y t Hs IH Hy]; simpl.
  - repeat constructor.
  - destruct (Z.leb_spec (key x) (key y)) as [Hxy|Hxy].
    + constructor; [by constructor|].
      constructor; [done|].
      eapply Forall_impl; [exact Hy|]. unfold key_le. intros; lia.
    + constructor; [done|].
      rewrite (insert_by_perm x t). constructor; [|done].
      unfold key_le. lia.
Qed.

Lemma sorted_by_sorted l : StronglySorted key_le (sorted_by key l).
Proof.
  induction l as [|x t IH]; simpl; [constructor|].
  by apply insert_by_sorted.
Qed.

Lemma min_from_spec best l :
  let m := min_from key best l in
  (m = best \/ m ∈ l) /\ key m <= key best /\ Forall (fun x => key m <= key x) l.
Proof.
  revert best. induction l as [|x t IH]; intros best; simpl.
  - split; [by left|]. split; [lia|constructor].
  - specialize (IH (if key x <? key best then x else best)).
    simpl in IH. destruct IH as (Hin & Hle & Hall).
    destruct (Z.ltb_spec (key x) (key best)) as [Hlt|Hge].
    + split; [right; destruct Hin as [->|Hin]; [left|by right]|].
      split; [lia|]. constructor; [lia|done].
    + split; [destruct Hin as [->|Hin]; [by left|right; by right]|].
      split; [lia|]. constructor; [lia|done].
Qed.

Lemma min_by_spec l m :
  min_by key l = Ok m -> m ∈ l /\ Forall (fun x => key m <= key x) l.
Proof.
  destruct l as [|x t]; simpl; [done|]. intros [= <-].
  destruct (min_from_spec x t) as (Hin & Hle & Hall). split.
  - destruct Hin as [->|Hin]; [left|by right].
  - by constructor.
Qed.

Lemma min_from_unfold best x l :
  min_from key best (x :: l) = min_from key (if key x <? key best then x else best) l.
Proof. reflexivity. Qed.

(** The least element of a list against a candidate: the candidate stays
    unless the list holds a strictly smaller element. *)
Lemma min_from_cons best y l :
  min_from key best (y :: l) =
  if key (min_from key y l) <? key best then min_from key y l else best.
Proof.
  revert best y. induction l as [|z l IH]; intros best y; [reflexivity|].
  rewrite (min_from_unfold best y), (IH _ z), (IH y z).
  destruct (Z.ltb_spec (key y) (key best));
  destruct (Z.ltb_spec (key (min_from key z l)) (key y));
  repeat match goal with
         | |- context [?a <? ?b] => destruct (Z.ltb_spec a b)
         end; try reflexivity; lia.
Qed.

(** [min] returns the head of the stable ascending sort. *)
Lemma sorted_by_head l m :
  min_by key l = Ok m -> exists t, sorted_by key l = m :: t.
Proof.
  revert m. induction l as [|x l IH]; intros m; [done|].
  destruct l as [|y l]; [intros [= <-]; by exists []|].
  destruct (IH _ eq_refl) as [t Ht].
  change (min_by key (x :: y :: l)) with (Ok (min_from key x (y :: l))).
  rewrite min_from_cons. intros [= <-].
  change (sorted_by key (x :: y :: l)) with (insert_by key x (sorted_by key (y :: l))).
  rewrite Ht. simpl.
  destruct (Z.leb_spec (key x) (key (min_from key y l)));
    destruct (Z.ltb_spec (key (min_from key y l)) (key x)); try lia; eauto.
Qed.

End Primitives.

Lemma py_int_floor (x : Q) : (0 <= x)%Q -> py_int x = Qfloor x.
Proof.
  destruct x as [n d]. unfold py_int, Qle, Qfloor. simpl. intros Hn.
  apply Z.quot_div_nonneg; lia.
Qed.

(** * Properties of the binary64 rounding *)

Lemma round_half_even_le (a b k : Z) :
  0 < b -> a <= k * b -> round_half_even a b <= k.
Proof.
  intros Hb Ha. unfold round_half_even.
  pose proof (Z.div_mod a b ltac:(lia)) as Hdiv.
  pose proof (Z.mod_pos_bound a b Hb) as Hmod.
  assert (Hq : a / b <= k) by nia.
  assert (Hq' : 0 < a mod b -> a / b + 1 <= k) by nia.
  destruct (Z.compare_spec (2 * (a mod b)) b); [destruct (Z.even (a / b))|..]; lia.
Qed.

Lemma round_half_even_ge (a b k : Z) :
  0 < b -> k * b <= a -> k <= round_half_even a b.
Proof.
  intros Hb Ha. unfold round_half_even.
  pose proof (Z.div_mod a b ltac:(lia)) as Hdiv.
  pose proof (Z.mod_pos_bound a b Hb) as Hmod.
  assert (Hq : k <= a / b) by nia.
  destruct (Z.compare_spec (2 * (a mod b)) b); [destruct (Z.even (a / b))|..]; lia.
Qed.

(** [2 ^ ilog2 n d <= n / d]. *)
Lemma ilog2_lower (n d : Z) :
  0 < n -> 0 < d ->
  d * 2 ^ Z.max 0 (ilog2 n d) <= n * 2 ^ Z.max 0 (- ilog2 n d).
Proof.
  intros Hn Hd. unfold ilog2.
  set (c := Z.log2 n - Z.log2 d).
  destruct (Z.leb_spec (d * 2 ^ Z.max 0 c) (n * 2 ^ Z.max 0 (- c))) as [Hle|_]; [done|].
  destruct (Z.log2_spec n Hn) as [Hn1 _].
  destruct (Z.log2_spec d Hd) as [_ Hd2].
  pose proof (Z.log2_nonneg n). pose proof (Z.log2_nonneg d).
  destruct (Z.le_gt_cases 1 c) as [Hc|Hc].
  - replace (Z.max 0 (c - 1)) with (c - 1) by lia.
    replace (Z.max 0 (- (c - 1))) with 0 by lia.
    assert (Hpow : 2 ^ Z.log2 n = 2 ^ (Z.log2 d + 1) * 2 ^ (c - 1)).
    { rewrite <- Z.pow_add_r by lia. f_equal. unfold c. lia. }
    assert (0 < 2 ^ (c - 1)) by (apply Z.pow_pos_nonneg; lia).
    rewrite Z.pow_0_r. nia.
  - replace (Z.max 0 (c - 1)) with 0 by lia.
    replace (Z.max 0 (- (c - 1))) with (1 - c) by lia.
    assert (Hpow : 2 ^ (Z.log2 d + 1) = 2 ^ Z.log2 n * 2 ^ (1 - c)).
    { rewrite <- Z.pow_add_r by lia. f_equal. unfold c. lia. }
    assert (0 < 2 ^ (1 - c)) by (apply Z.pow_pos_nonneg; lia).
    rewrite Z.pow_0_r. nia.
Qed.

Lemma round_positive_upper (n d b : Z) :
  0 < n -> 0 < d -> n <= b * d -> b < 2 ^ 53 ->
  exists y, round_positive n d = Finite y /\ (0 <= y <= inject_Z b)%Q.
Proof.
  intros Hn Hd Hb Hb53. unfold round_positive.
  pose proof (ilog2_lower n d Hn Hd) as Hlog.
  assert (HL : ilog2 n d <= 52).
  { destruct (Z.le_gt_cases (ilog2 n d) 52) as [|Hgt]; [done|]. exfalso.
    replace (Z.max 0 (ilog2 n d)) with (53 + (ilog2 n d - 53)) in Hlog by lia.
    replace (Z.max 0 (- ilog2 n d)) with 0 in Hlog by lia.
    rewrite Z.pow_add_r, Z.pow_0_r in Hlog by lia.
    assert (0 < 2 ^ (ilog2 n d - 53)) by (apply Z.pow_pos_nonneg; lia).
    nia. }
  set (e := Z.max (ilog2 n d - 52) (- 1074)).
  replace (Z.max 0 e) with 0 by lia.
  set (k := Z.max 0 (- e)).
  assert (Hk : 0 < 2 ^ k) by (apply Z.pow_pos_nonneg; lia).
  rewrite Z.pow_0_r, !Z.mul_1_r.
  set (m := round_half_even (n * 2 ^ k) d).
  assert (Hm0 : 0 <= m) by (apply round_half_even_ge; [done|nia]).
  assert (Hmb : m <= b * 2 ^ k) by (apply round_half_even_le; [done|nia]).
  destruct (Z.leb_spec (2 ^ 1024 * 2 ^ k) m) as [Hover|_].
  - exfalso. assert (2 ^ 53 < 2 ^ 1024) by (apply Z.pow_lt_mono_r; lia). nia.
  - eexists. split; [reflexivity|].
    unfold Qle. simpl. rewrite Z2Pos.id by done. lia.
Qed.

Lemma round_positive_lower (n d a : Z) :
  0 < n -> 0 < d -> 0 <= a <= 2 ^ 53 -> a * d <= n ->
  match round_positive n d with
  | Finite y => (inject_Z a <= y)%Q
  | Infinity negative => negative = false
  end.
Proof.
  intros Hn Hd Ha Had. unfold round_positive.
  pose proof (ilog2_lower n d Hn Hd) as Hlog.
  set (e := Z.max (ilog2 n d - 52) (- 1074)) in *.
  destruct (Z.leb_spec (2 ^ 1024 * 2 ^ Z.max 0 (- e))
              (round_half_even (n * 2 ^ Z.max 0 (- e)) (d * 2 ^ Z.max 0 e)
               * 2 ^ Z.max 0 e)) as [_|_]; [done|].
  unfold Qle. simpl.
  assert (Hpos : 0 < 2 ^ Z.max 0 (- e)) by (apply Z.pow_pos_nonneg; lia).
  rewrite Z2Pos.id by done.
  destruct (Z.le_gt_cases e 0) as [He|He].
  - replace (Z.max 0 e) with 0 by lia. rewrite Z.pow_0_r, !Z.mul_1_r.
    apply round_half_even_ge; [done|nia].
  - replace (Z.max 0 (- e)) with 0 by lia. rewrite Z.pow_0_r, !Z.mul_1_r.
    replace (Z.max 0 e) with e by lia.
    assert (He2 : 2 <= 2 ^ e).
    { change 2 with (2 ^ 1) at 1. apply Z.pow_le_mono_r; lia. }
    assert (Hm : 2 ^ 52 <= round_half_even n (d * 2 ^ e)).
    { apply round_half_even_ge; [nia|].
      replace (Z.max 0 (ilog2 n d)) with (52 + e) in Hlog by lia.
      replace (Z.max 0 (- ilog2 n d)) with 0 in Hlog by lia.
      rewrite Z.pow_add_r, Z.pow_0_r in Hlog by lia. nia. }
    assert (H53 : 2 ^ 53 = 2 ^ 52 * 2) by reflexivity.
    nia.
Qed.

(** Rounding keeps a number between the integers that bound it, as long as
    these are below [2 ^ 53]. *)
Lemma binary64_bounds (x : Q) (a b : Z) :
  0 <= a -> b < 2 ^ 53 -> (inject_Z a <= x <= inject_Z b)%Q ->
  exists y, binary64 x = Finite y /\ (inject_Z a <= y <= inject_Z b)%Q.
Proof.
  intros Ha Hb [Hax Hxb]. unfold binary64.
  pose proof (Qred_correct x) as Hr.
  rewrite <- Hr in Hax, Hxb. clear Hr.
  destruct (Qred x) as [n d]. unfold Qle in Hax, Hxb. simpl in *.
  rewrite Z.mul_1_r in *.
  destruct n as [|n|n].
  - exists 0%Q. split; [done|]. unfold Qle. simpl. lia.
  - destruct (round_positive_upper (Zpos n) (Zpos d) b) as (y & Hy & Hy0 & Hyb);
      [lia..|].
    pose proof (round_positive_lower (Zpos n) (Zpos d) a) as Hlow.
    rewrite Hy in Hlow. exists y. split; [done|]. split; [|done].
    apply Hlow; [lia..| |lia]. nia.
  - nia.
Qed.

Lemma binary64_lower (x : Q) (a : Z) :
  0 <= a <= 2 ^ 53 -> (inject_Z a <= x)%Q ->
  match binary64 x with
  | Finite y => (inject_Z a <= y)%Q
  | Infinity negative => negative = false
  end.
Proof.
  intros Ha Hax. unfold binary64.
  pose proof (Qred_correct x) as Hr.
  rewrite <- Hr in Hax. clear Hr.
  destruct (Qred x) as [n d]. unfold Qle in Hax. simpl in *.
  rewrite Z.mul_1_r in *.
  destruct n as [|n|n].
  - unfold Qle. simpl. lia.
  - apply round_positive_lower; lia.
  - nia.
Qed.

Lemma binary64_proper (x y : Q) : (x == y)%Q -> binary64 x = binary64 y.
Proof. intros Heq. unfold binary64. by rewrite (Qred_complete x y Heq). Qed.

(** An integer below [2 ^ 53] is a float. *)
Lemma binary64_Z (n : Z) :
  0 <= n < 2 ^ 53 ->
  exists y, binary64 (inject_Z n) = Finite y /\ (y == inject_Z n)%Q.
Proof.
  intros Hn. destruct (binary64_bounds (inject_Z n) n n) as (y & Hy & Hyn);
    [lia|lia|split; apply Qle_refl|].
  exists y. split; [done|]. destruct Hyn as [Hlo Hhi]. by apply Qle_antisym.
Qed.

(** [int(n * p)] for a size below [2 ^ 53] and a proportion between 0 and
    1: the floor of the exact product, or the next integer when the rounded
    product reaches it. *)
Lemma int_of_product_bounds (n : Z) (p : Q) :
  0 <= n < 2 ^ 53 -> (0 <= p <= 1)%Q ->
  exists k,
    int_of_product n p = Ok k /\
    Qfloor (inject_Z n * p) <= k <= Qceiling (inject_Z n * p) /\
    0 <= k <= n.
Proof.
  intros Hn [Hp0 Hp1]. unfold int_of_product.
  destruct (binary64_Z n Hn) as (fn & -> & Hfn).
  rewrite (binary64_proper (fn * p) (inject_Z n * p)) by (by rewrite Hfn).
  assert (Hn' : (0 <= inject_Z n)%Q).
  { change 0%Q with (inject_Z 0). rewrite <- Zle_Qle. lia. }
  set (x := (inject_Z n * p)%Q).
  assert (Hx0 : (0 <= x)%Q) by (unfold x; nra).
  assert (Hxn : (x <= inject_Z n)%Q) by (unfold x; nra).
  assert (Ha : 0 <= Qfloor x).
  { change 0 with (Qfloor 0). by apply Qfloor_resp_le. }
  assert (Hb : Qceiling x <= n).
  { rewrite <- (Qceiling_Z n). by apply Qceiling_resp_le. }
  destruct (binary64_bounds x (Qfloor x) (Qceiling x)) as (y & -> & Hya & Hyb);
    [done|lia|split; [apply Qfloor_le|apply Qle_ceiling]|].
  exists (py_int y). split; [done|].
  assert (Hy0 : (0 <= y)%Q).
  { eapply Qle_trans; [|exact Hya]. change 0%Q with (inject_Z 0).
    rewrite <- Zle_Qle. lia. }
  rewrite py_int_floor by done.
  assert (Hlo : Qfloor x <= Qfloor y).
  { rewrite <- (Qfloor_Z (Qfloor x)). by apply Qfloor_resp_le. }
  assert (Hhi : Qfloor y <= Qceiling x).
  { rewrite <- (Qfloor_Z (Qceiling x)). by apply Qfloor_resp_le. }
  lia.
Qed.

(** ... and for a proportion of 1 or more: at least the size, unless the
    product overflows. *)
Lemma int_of_product_ge (n : Z) (p : Q) :
  0 <= n < 2 ^ 53 -> (1 <= p)%Q ->
  match int_of_product n p with
  | Ok k => n <= k
  | Raise e => e = OverflowError
  end.
Proof.
  intros Hn Hp. unfold int_of_product.
  destruct (binary64_Z n Hn) as (fn & -> & Hfn).
  rewrite (binary64_proper (fn * p) (inject_Z n * p)) by (by rewrite Hfn).
  assert (Hn' : (0 <= inject_Z n)%Q).
  { change 0%Q with (inject_Z 0). rewrite <- Zle_Qle. lia. }
  assert (Hx : (inject_Z n <= inject_Z n * p)%Q) by nra.
  pose proof (binary64_lower (inject_Z n * p) n ltac:(lia) Hx) as Hlow.
  destruct (binary64 (inject_Z n * p)) as [y|s]; [|done].
  rewrite py_int_floor by (eapply Qle_trans; [exact Hn'|exact Hlow]).
  rewrite <- (Qfloor_Z n). by apply Qfloor_resp_le.
Qed.

(** Under the hypotheses of [int_of_product_bounds], a product of 1 or more
    keeps one schedule at least. *)
Lemma int_of_product_positive (n : Z) (p : Q) :
  0 <= n < 2 ^ 53 -> (0 <= p <= 1)%Q -> (1 <= inject_Z n * p)%Q ->
  exists k, int_of_product n p = Ok k /\ 1 <= k <= n.
Proof.
  intros Hn Hp Hone.
  destruct (int_of_product_bounds n p Hn Hp) as (k & Hk & [Hlo _] & [_ Hkn]).
  exists k. split; [done|].
  assert (1 <= Qfloor (inject_Z n * p)); [|lia].
  change 1 with (Qfloor 1). by apply Qfloor_resp_le.
Qed.

Lemma slice_to_take {A} (l : list A) (k : Z) :
  0 <= k -> slice_to l k = take (Z.to_nat k) l.
Proof. intros Hk. unfold slice_to. by destruct (Z.leb_spec 0 k); [|lia]. Qed.

(** * Restart policy *)

Section Restart.
Context `{ops : Ops}.

(** A restart that keeps [k >= 0] schedules: the first [k] of the ascending
    sort, then the fresh ones. *)
Lemma restart_population_unfold (population : list Sched) (flowshop : Flowshop)
    (p : Q) (k : Z) (w : World) :
  int_of_product (len population) p = Ok k -> 0 <= k ->
  restart_population population flowshop p w =
  match random_initial_pop flowshop (len population - k) w with
  | Ok (fresh, w') => Ok (take (Z.to_nat k) (sorted_by duree population) ++ fresh, w')
  | Raise e => Raise e
  end.
Proof.
  intros Hk Hk0.
  unfold restart_population, extract_best_from_population, bind, lift, ret.
  rewrite Hk, slice_to_take by done.
  by destruct (random_initial_pop flowshop (len population - k) w) as [[fresh w']|e].
Qed.

Lemma restart_population_length (population : list Sched) (flowshop : Flowshop)
    (p : Q) (w w' : World) (res : list Sched) :
  (0 <= p <= 1)%Q ->
  len population < 2 ^ 53 ->
  (forall n v fresh v', 0 <= n -> random_initial_pop flowshop n v = Ok (fresh, v') ->
                        len fresh = n) ->
  restart_population population flowshop p w = Ok (res, w') ->
  length res = length population.
Proof.
  intros Hp Hsmall Hgen.
  destruct (int_of_product_bounds (len population) p) as (k & Hk & _ & Hk0 & Hkn);
    [unfold len in *; lia|done|].
  rewrite (restart_population_unfold _ _ _ k) by done.
  destruct (random_initial_pop _ _ w) as [[fresh v']|e] eqn:Hr; [|done].
  intros [= <- <-]. apply Hgen in Hr; [|lia].
  rewrite length_app, length_take, sorted_by_length.
  unfold len in *. lia.
Qed.

End Restart.

(** C2, as the specification states it, fails: the number of schedules kept
    is the truncation of the binary64 product [len(population) *
    preserved_prop], not the floor of the exact product.  With ten
    schedules and the float 0.7, whose value is a little below 7/10, the
    exact product is below 7 and its floor is 6; the rounded product is 7.0
    and seven schedules are kept. *)
Lemma restart_population_rounds_product :
  let p := (6305039478318694 # 9007199254740992)%Q in
  let population := [10; 9; 8; 7; 6; 5; 4; 3; 2; 1] in
  binary64 (7 # 10) = Finite p /\
  (0 <= p <= 1)%Q /\
  Qfloor (inject_Z (len population) * p) = 6 /\
  restart_population (ops := demo_ops false 0) population tt p 0%Q
  = Ok ([1; 2; 3; 4; 5; 6; 7] ++ [1000; 1000; 1000], 0%Q).
Proof.
  split; [vm_compute; reflexivity|]. split; [split; discriminate|].
  split; vm_compute; reflexivity.
Qed.

(** C2, amended. For a proportion [p] between 0 and 1 and a population of
    [n < 2 ^ 53] schedules, [restart_population] returns the [k] first
    schedules of the population sorted by ascending duration (each of them
    at most as long as every schedule left out) followed by what
    [random_initial_pop] generates when asked for [n - k] schedules, where
    [k = int(n * p)] is the truncation of the binary64 product: the floor
    of the exact product, or the next integer when the rounded product
    reaches it; [k] lies between 0 and [n], and with [n - k] fresh
    schedules the result has [n] members. *)
Theorem restart_population_composition `{Ops} (population : list Sched)
    (flowshop : Flowshop) (p : Q) :
  (0 <= p <= 1)%Q ->
  len population < 2 ^ 53 ->
  let n := len population in
  exists k,
    int_of_product n p = Ok k /\
    Qfloor (inject_Z n * p) <= k <= Qceiling (inject_Z n * p) /\
    0 <= k <= n /\
    let elite := take (Z.to_nat k) (sorted_by duree population) in
    let rest := drop (Z.to_nat k) (sorted_by duree population) in
    len elite = k /\
    elite ++ rest ≡ₚ population /\
    StronglySorted (key_le duree) (elite ++ rest) /\
    (forall a b, a ∈ elite -> b ∈ rest -> duree a <= duree b) /\
    (forall w,
       restart_population population flowshop p w =
       match random_initial_pop flowshop (n - k) w with
       | Ok (fresh, w') => Ok (elite ++ fresh, w')
       | Raise e => Raise e
       end) /\
    (forall fresh, len fresh = n - k -> len (elite ++ fresh) = n).
Proof.
  intros Hp Hsmall n.
  destruct (int_of_product_bounds n p) as (k & Hk & Hround & Hk0);
    [unfold n, len in *; lia|done|].
  exists k. split; [done|]. split; [done|]. split; [done|].
  intros elite rest.
  assert (Hlen : len elite = k).
  { unfold elite, len. rewrite length_take, sorted_by_length.
    unfold n, len in Hk0. lia. }
  assert (Hsplit : elite ++ rest = sorted_by duree population)
    by apply take_drop.
  split; [done|]. split; [rewrite Hsplit; apply sorted_by_perm|].
  split; [rewrite Hsplit; apply sorted_by_sorted|]. split; [|split].
  - intros a b Ha Hb.
    apply (StronglySorted_app_1_elem_of (key_le duree) elite rest); [|done..].
    rewrite Hsplit. apply sorted_by_sorted.
  - intros w. apply restart_population_unfold; [done|lia].
  - intros fresh Hf. unfold len in *. rewrite length_app. lia.
Qed.

Lemma restart_population_composition_witness :
  (0 <= 1 # 2 <= 1)%Q /\
  len [30; 10; 40; 20] < 2 ^ 53 /\
  restart_population (ops := demo_ops false 0) [30; 10; 40; 20] tt (1 # 2) 0%Q =
  Ok ([10; 20; 1000; 1000], 0%Q).
Proof.
  assert (Hp : (0 <= 1 # 2 <= 1)%Q) by (split; discriminate).
  assert (Hsmall : len [30; 10; 40; 20] < 2 ^ 53) by reflexivity.
  split; [exact Hp|]. split; [exact Hsmall|].
  destruct (restart_population_composition (H0 := demo_ops false 0)
              [30; 10; 40; 20] tt (1 # 2) Hp Hsmall)
    as (k & Hk & _ & _ & _ & _ & _ & _ & Hrun & _).
  vm_compute in Hk. injection Hk as <-.
  rewrite Hrun. reflexivity.
Defined.

(** C9, as the specification states it, fails: with a proportion whose
    product with the size of the population is truncated to 0 (here the
    proportion 0), nothing of the population is kept.  The population
    [5; 6] restarts as two fresh schedules of duration 1000. *)
Lemma restart_population_may_keep_nothing :
  let population := [5; 6] in
  population <> [] /\ (0 <= 0 <= 1)%Q /\
  exists res,
    restart_population (ops := demo_ops false 0) population tt 0%Q 0%Q = Ok (res, 0%Q) /\
    forall x, x ∈ population -> x ∉ res.
Proof.
  split; [done|]. split; [split; discriminate|].
  exists [1000; 1000]. split; [vm_compute; reflexivity|].
  intros x Hx Hres.
  apply list_elem_of_In in Hx, Hres. simpl in Hx, Hres.
  destruct Hx as [<-|[<-|[]]]; destruct Hres as [?|[?|[]]]; discriminate.
Qed.

(** C9, amended. When [int(len(population) * preserved_prop)] is 1 or more,
    the population after the restart starts with the schedule that [min]
    selects in the population before it (the first one of least duration),
    followed by the other preserved schedules and the fresh ones.  This is
    so for every proportion [p] between 0 and 1 and every population of
    [n < 2 ^ 53] schedules with [n * p >= 1]. *)
Theorem restart_population_keeps_best `{Ops} (population : list Sched)
    (flowshop : Flowshop) :
  (forall p k,
     int_of_product (len population) p = Ok k ->
     1 <= k ->
     population <> [] ->
     exists best elite,
       min_by duree population = Ok best /\
       best ∈ population /\
       (forall x, x ∈ population -> duree best <= duree x) /\
       forall w,
         restart_population population flowshop p w =
         match random_initial_pop flowshop (len population - k) w with
         | Ok (fresh, w') => Ok (best :: elite ++ fresh, w')
         | Raise e => Raise e
         end) /\
  (forall p,
     (0 <= p <= 1)%Q ->
     len population < 2 ^ 53 ->
     (1 <= inject_Z (len population) * p)%Q ->
     population <> [] /\
     exists k, int_of_product (len population) p = Ok k /\ 1 <= k).
Proof.
  split.
  - intros p k Hk Hone Hne.
    destruct (min_by duree population) as [best|e] eqn:Hmin;
      [|by destruct population].
    destruct (sorted_by_head duree population best Hmin) as [t Ht].
    destruct (min_by_spec duree population best Hmin) as [Hin Hall].
    exists best, (take (Z.to_nat k - 1) t).
    split; [done|]. split; [done|]. split.
    + intros x Hx. by eapply Forall_forall in Hall.
    + intros w. rewrite (restart_population_unfold _ _ _ k) by (done || lia).
      rewrite Ht.
      assert (Htake : take (Z.to_nat k) (best :: t) = best :: take (Z.to_nat k - 1) t).
      { destruct (Z.to_nat k) as [|k'] eqn:Hk'; [lia|]. simpl. by rewrite Nat.sub_0_r. }
      by rewrite Htake.
  - intros p Hp Hsmall Hone.
    destruct (int_of_product_positive (len population) p) as (k & Hk & Hk1 & Hkn);
      [unfold len in *; lia|done..|].
    split; [|by exists k].
    intros ->. change (len []) with 0 in Hkn. lia.
Qed.

Lemma restart_population_keeps_best_witness :
  let p := (6004799503160661 # 18014398509481984)%Q in
  binary64 (3333333333333333 # 10000000000000000) = Finite p /\
  int_of_product (len [30; 10; 40]) p = Ok 1 /\
  (exists elite,
     restart_population (ops := demo_ops false 0) [30; 10; 40] tt p 0%Q
     = Ok (10 :: elite ++ [1000; 1000], 0%Q)) /\
  exists k, int_of_product (len [30; 10; 40; 20]) (1 # 2) = Ok k /\ 1 <= k.
Proof.
  intros p.
  split; [vm_compute; reflexivity|].
  assert (Hk : int_of_product (len [30; 10; 40]) p = Ok 1) by (vm_compute; reflexivity).
  split; [exact Hk|].
  destruct (restart_population_keeps_best (H0 := demo_ops false 0) [30; 10; 40] tt)
    as [Hkeep _].
  destruct (restart_population_keeps_best (H0 := demo_ops false 0) [30; 10; 40; 20] tt)
    as [_ Hsome].
  split.
  - destruct (Hkeep p 1 Hk ltac:(lia) ltac:(done))
      as (best & elite & Hmin & _ & _ & Hrun).
    exists elite. rewrite Hrun. injection Hmin as <-. reflexivity.
  - refine (proj2 (Hsome (1 # 2) _ _ _)); [split; discriminate|reflexivity|discriminate].
Defined.

(** * Reasoning about computations *)

Section Monad.
Context {W A B : Type}.

Lemma bind_Ok (m : M W A) (k : A -> M W B) (w : W) (r : B * W) :
  bind m k w = Ok r <-> exists a w1, m w = Ok (a, w1) /\ k a w1 = Ok r.
Proof.
  unfold bind. split.
  - destruct (m w) as [[a w1]|e]; [eauto|done].
  - intros (a & w1 & -> & Hk). done.
Qed.

Lemma bind_Raise (m : M W A) (k : A -> M W B) (w : W) (e : Exn) :
  m w = Raise e -> bind m k w = Raise e.
Proof. unfold bind. by intros ->. Qed.

Lemma ret_Ok (a : A) (w : W) (r : A * W) : ret a w = Ok r <-> r = (a, w).
Proof. unfold ret. split; [by intros [= <-]|by intros ->]. Qed.

Lemma lift_Ok (x : Result A) (w : W) (r : A * W) :
  lift x w = Ok r <-> x = Ok r.1 /\ r.2 = w.
Proof.
  unfold lift. destruct x as [a|e], r as [a' w']; simpl; split.
  - by intros [= <- <-].
  - by intros [[= <-] <-].
  - done.
  - by intros [? _].
Qed.

End Monad.

Lemma getitem_Ok {W} (parameters : gmap string Q) (key : string) (w : W) (r : Q * W) :
  getitem parameters key w = Ok r <-> parameters !! key = Some r.1 /\ r.2 = w.
Proof.
  unfold getitem. destruct (parameters !! key) as [v|], r as [v' w']; simpl; split.
  - by intros [= <- <-].
  - by intros [[= <-] <-].
  - done.
  - by intros [? _].
Qed.

Lemma getitem_missing {W} (parameters : gmap string Q) (key : string) (w : W) :
  parameters !! key = None -> getitem parameters key w = Raise (KeyError key).
Proof. unfold getitem. by intros ->. Qed.


Lemma Qltb_ge (x y : Q) : Qltb x y = false <-> (y <= x)%Q.
Proof.
  unfold Qltb. rewrite negb_false_iff. apply Qle_bool_iff.
Qed.

(** * One generation of the controller *)

Section Generation.
Context `{ops : Ops}.
Variables (flowshop : Flowshop) (parameters : gmap string Q).

(** The test of the loop reads the clock, then the time limit. *)
Lemma loop_test_Ok (s : Locals) (w w' : World) (b : bool) :
  loop_test parameters s w = Ok (b, w') <->
  exists time_limit,
    parameters !! "time_limit" = Some time_limit /\
    w' = (time w).2 /\
    b = Qltb ((time w).1 - start_time s + iteration_time s + 1)%Q (60 * time_limit)%Q.
Proof.
  unfold loop_test, bind, time_time, getitem, ret.
  destruct (time w) as [t w1]; simpl.
  destruct (parameters !! "time_limit") as [tl|]; split.
  - intros [= <- <-]. by exists tl.
  - by intros (tl' & [= <-] & -> & ->).
  - done.
  - by intros (tl' & ? & _).
Qed.

(** Everything that one iteration does, in the order in which it does it:
    the worlds [w1] ... [w5] are those between the calls. *)
Lemma iteration_Ok (s s' : Locals) (w w' : World) :
  iteration flowshop parameters s w = Ok (s', w') ->
  exists pop w2 best_sched statistics w3 restart convergent w4 pop' restarts' w5,
    update_population (population s) flowshop parameters
      (swap_neighbors s) (insert_neighbors s) (time w).2 = Ok (pop, w2) /\
    min_by duree pop = Ok best_sched /\
    population_statistics pop w2 = Ok (statistics, w3) /\
    stagnation (list_statistics s ++ [statistics]) (iterations_where_restart s)
      (index s + 1) = Ok restart /\
    is_convergent pop (entropy_threshold s) w3 = Ok (convergent, w4) /\
    (if convergent || restart
     then restarts' = iterations_where_restart s ++ [index s + 1] /\
          exists preserved_prop,
            parameters !! "preserved_prop" = Some preserved_prop /\
            restart_population pop flowshop preserved_prop w4 = Ok (pop', w5)
     else restarts' = iterations_where_restart s /\ pop' = pop /\ w5 = w4) /\
    w' = (time w5).2 /\
    s' = mkLocals (start_time s) (swap_neighbors s) (insert_neighbors s)
           (entropy_threshold s) pop' (list_statistics s ++ [statistics])
           (if duree (overall_best_scheduling s) >? duree best_sched
            then best_sched else overall_best_scheduling s)
           restarts' (index s + 1) ((time w5).1 - (time w).1)%Q.
Proof.
  unfold iteration. intros Hrun.
  apply bind_Ok in Hrun as (t0 & w1 & Ht0 & Hrun).
  unfold time_time in Ht0. injection Ht0 as Ht0.
  apply bind_Ok in Hrun as (pop & w2 & Hpop & Hrun).
  apply bind_Ok in Hrun as (best_sched & w2' & Hbest & Hrun).
  apply lift_Ok in Hbest as [Hbest Hw2]. simpl in Hbest, Hw2. subst w2'.
  apply bind_Ok in Hrun as (statistics & w3 & Hstat & Hrun).
  apply bind_Ok in Hrun as (restart & w3' & Hrestart & Hrun).
  apply lift_Ok in Hrestart as [Hrestart Hw3]. simpl in Hrestart, Hw3. subst w3'.
  apply bind_Ok in Hrun as (convergent & w4 & Hconv & Hrun).
  assert (Hw1 : w1 = (time w).2) by (by rewrite Ht0).
  assert (Ht : t0 = (time w).1) by (by rewrite Ht0).
  subst w1 t0.
  destruct (convergent || restart) eqn:Hor.
  - apply bind_Ok in Hrun as (p & w4' & Hp & Hrun).
    apply getitem_Ok in Hp as [Hp Hw4]. simpl in Hp, Hw4. subst w4'.
    apply bind_Ok in Hrun as (pop' & w5 & Hpop' & Hrun).
    apply bind_Ok in Hrun as (t & w6 & Ht & Hrun).
    unfold time_time in Ht. injection Ht as Ht.
    apply ret_Ok in Hrun as [= -> ->].
    exists pop, w2, best_sched, statistics, w3, restart, convergent, w4, pop',
      (iterations_where_restart s ++ [index s + 1]), w5.
    rewrite Hor, Ht. simpl. repeat split; eauto.
  - apply bind_Ok in Hrun as (t & w6 & Ht & Hrun).
    unfold time_time in Ht. injection Ht as Ht.
    apply ret_Ok in Hrun as [= -> ->].
    exists pop, w2, best_sched, statistics, w3, restart, convergent, w4, pop,
      (iterations_where_restart s), w4.
    rewrite Hor, Ht. simpl. repeat split; eauto.
Qed.

(** A generation is a function of the state before it. *)
Lemma generation_deterministic (c c1 c2 : Locals * World) :
  generation flowshop parameters c c1 ->
  generation flowshop parameters c c2 -> c1 = c2.
Proof.
  intros (w1 & Ht1 & Hi1) (w2 & Ht2 & Hi2).
  rewrite Ht1 in Ht2. injection Ht2 as <-. rewrite Hi1 in Hi2. by injection Hi2.
Qed.

Lemma nsteps_generation_deterministic (n : nat) (c c1 c2 : Locals * World) :
  nsteps (generation flowshop parameters) n c c1 ->
  nsteps (generation flowshop parameters) n c c2 -> c1 = c2.
Proof.
  intros H1. revert c2. induction H1 as [|n x y z Hxy _ IH]; intros c2 H2.
  - by inversion H2.
  - inversion H2 as [|? ? y' ? Hxy' Hrest]; subst.
    rewrite <- (generation_deterministic _ _ _ Hxy Hxy') in Hrest. by apply IH.
Qed.

(** The state after [k] generations lies on the way to the state after
    [k + m] generations. *)
Lemma nsteps_generation_split (k m : nat) (c ck c' : Locals * World) :
  nsteps (generation flowshop parameters) k c ck ->
  nsteps (generation flowshop parameters) (k + m) c c' ->
  nsteps (generation flowshop parameters) m ck c'.
Proof.
  intros Hk Hkm. apply nsteps_add_inv in Hkm as (ck' & Hk' & Hm).
  by rewrite (nsteps_generation_deterministic _ _ _ _ Hk Hk').
Qed.

Lemma after_nsteps (n : nat) (c c' : Locals * World) :
  after n flowshop parameters c = Some c' <->
  nsteps (generation flowshop parameters) n c c'.
Proof.
  revert c. induction n as [|n IH]; intros c; simpl.
  - split; [intros [= <-]; constructor|by inversion 1].
  - split.
    + destruct (loop_test parameters c.1 c.2) as [[[] w]|] eqn:Ht; try done.
      destruct (iteration flowshop parameters c.1 w) as [c1|] eqn:Hi; try done.
      intros Hn. apply IH in Hn.
      eapply nsteps_l; [|exact Hn]. by exists w.
    + inversion 1 as [|? ? c1 ? (w & Ht & Hi) Hn]; subst.
      rewrite Ht, Hi. by apply IH.
Qed.

Lemma after_generation (c c' : Locals * World) :
  after 1 flowshop parameters c = Some c' -> generation flowshop parameters c c'.
Proof. intros Hc. apply after_nsteps in Hc. by apply nsteps_once_inv in Hc. Qed.

(** The loop returns the state after the generations that it ran, at the
    first failure of its test... *)
Lemma while_loop_Some (fuel : nat) (s s' : Locals) (w w' : World) :
  while_loop fuel flowshop parameters s w = Ok (Some s', w') ->
  exists n w1,
    (n < fuel)%nat /\
    nsteps (generation flowshop parameters) n (s, w) (s', w1) /\
    loop_test parameters s' w1 = Ok (false, w').
Proof.
  revert s w. induction fuel as [|fuel IH]; intros s w; simpl; [done|].
  intros Hrun. apply bind_Ok in Hrun as ([] & w1 & Ht & Hrun).
  - apply bind_Ok in Hrun as (s1 & w2 & Hi & Hrun).
    apply IH in Hrun as (n & w3 & Hn & Hsteps & Hstop).
    exists (S n), w3. split; [lia|]. split; [|done].
    eapply nsteps_l; [|exact Hsteps]. by exists w1.
  - apply ret_Ok in Hrun as [= -> ->].
    exists O, w. split; [lia|]. split; [constructor|done].
Qed.

(** ... and it does return it as soon as it may unfold often enough. *)
Lemma while_loop_complete (n fuel : nat) (s s' : Locals) (w w1 w' : World) :
  nsteps (generation flowshop parameters) n (s, w) (s', w1) ->
  loop_test parameters s' w1 = Ok (false, w') ->
  (n < fuel)%nat ->
  while_loop fuel flowshop parameters s w = Ok (Some s', w').
Proof.
  revert fuel s w. induction n as [|n IH]; intros fuel s w Hsteps Hstop Hfuel;
    (destruct fuel as [|fuel]; [lia|]); simpl.
  - inversion Hsteps; subst. unfold bind. by rewrite Hstop.
  - inversion Hsteps as [|? ? [s1 w2] ? (w3 & Ht & Hi) Hrest]; subst.
    simpl in Ht, Hi. unfold bind. rewrite Ht, Hi.
    apply IH; [done..|lia].
Qed.

End Generation.

(** * One generation of the earlier controller *)

Section LegacyGeneration.
Context `{ops : Legacy.Ops}.
Variable flowshop : Flowshop.

Lemma legacy_find_best_from (best : Sched) (l : list Sched) :
  Legacy.find_best_from best l = min_from duree best l.
Proof. revert best. induction l as [|x l IH]; intros best; simpl; [done|apply IH]. Qed.

(** [find_best_ordo_in_list] returns a schedule of the list that no other
    one beats. *)
Lemma legacy_find_best_spec (l : list Sched) (m : Sched) :
  Legacy.find_best_ordo_in_list l = Ok m ->
  m ∈ l /\ Forall (fun x => duree m <= duree x) l.
Proof.
  destruct l as [|x l]; [done|].
  unfold Legacy.find_best_ordo_in_list. rewrite legacy_find_best_from.
  intros Hm. replace m with (min_from duree x (x :: l)) by congruence.
  pose proof (min_from_spec duree x (x :: l)) as Hspec. cbv zeta in Hspec.
  destruct Hspec as (Hin & _ & Hall).
  split; [|done]. destruct Hin as [->|Hin]; [left|done].
Qed.


Lemma legacy_iteration_Ok (s s' : Legacy.Locals) (w w' : World) :
  Legacy.iteration flowshop s w = Ok (s', w') ->
  exists pop1 w2 pop2 w3 pop3 w4 best,
    Legacy.crossing flowshop (Legacy.population s) (time w).2 = Ok (pop1, w2) /\
    Legacy.mutation pop1 w2 = Ok (pop2, w3) /\
    Legacy.local_search pop2 w3 = Ok (pop3, w4) /\
    Legacy.find_best_ordo_in_list pop3 = Ok best /\
    w' = (time w4).2 /\
    s' = Legacy.mkLocals (Legacy.start_time s) best pop3
           ((time w4).1 - (time w).1)%Q.
Proof.
  unfold Legacy.iteration. intros Hrun.
  apply bind_Ok in Hrun as (t0 & w1 & Ht0 & Hrun).
  unfold time_time in Ht0. injection Ht0 as Ht0.
  apply bind_Ok in Hrun as (pop1 & w2 & Hpop1 & Hrun).
  apply bind_Ok in Hrun as (pop2 & w3 & Hpop2 & Hrun).
  apply bind_Ok in Hrun as (pop3 & w4 & Hpop3 & Hrun).
  apply bind_Ok in Hrun as (best & w4' & Hbest & Hrun).
  apply lift_Ok in Hbest as [Hbest Hw4]. simpl in Hbest, Hw4. subst w4'.
  apply bind_Ok in Hrun as (t & w5 & Ht & Hrun).
  unfold time_time in Ht. injection Ht as Ht.
  apply ret_Ok in Hrun as [= -> ->].
  assert (Hw1 : w1 = (time w).2) by (by rewrite Ht0).
  assert (Ht0' : t0 = (time w).1) by (by rewrite Ht0).
  subst w1 t0.
  exists pop1, w2, pop2, w3, pop3, w4, best.
  rewrite Ht. simpl. repeat split; eauto.
Qed.

End LegacyGeneration.

(** * The best schedule observed *)

(** C1, as the specification states it, fails for [src/memetic.py]: there
    [best_ordo] is overwritten at every generation.  With a mutation that
    adds 1 to every duration, the second generation replaces a best
    schedule of duration 6 by one of duration 7. *)
Lemma legacy_best_regresses :
  exists c0 c1 c2,
    Legacy.prologue (ops := demo_legacy_ops 1) tt 0%Q = Ok c0 /\
    Legacy.generation (H0 := demo_legacy_ops 1) tt c0 c1 /\
    Legacy.generation (H0 := demo_legacy_ops 1) tt c1 c2 /\
    duree (Base := demo_base) (Legacy.best_ordo c1.1) = 6 /\
    duree (Base := demo_base) (Legacy.best_ordo c2.1) = 7 /\
    ~ duree (Base := demo_base) (Legacy.best_ordo c2.1)
      <= duree (Base := demo_base) (Legacy.best_ordo c1.1).
Proof.
  exists (demo_legacy_state 1 0 [5] 0), (demo_legacy_state 1 6 [6] 1),
    (demo_legacy_state 1 7 [7] 2).
  split; [vm_compute; reflexivity|].
  split; [eexists; split; vm_compute; reflexivity|].
  split; [eexists; split; vm_compute; reflexivity|].
  split; [reflexivity|]. split; [reflexivity|]. simpl. lia.
Qed.

(** C1, amended. In [src/src/memetic.py] the best schedule observed never
    regresses: after a generation its duration is at most what it was
    before, over any number of generations too, and it changes only to the
    schedule that [min] selects in the population that [update_population]
    returned in that generation, when this one is strictly shorter.  In
    [src/memetic.py], [best_ordo] is after every generation a schedule of
    least duration of the population of that generation, whatever it was
    before. *)
Theorem best_observed_monotone `{ops : Ops} `{legacy : !Legacy.Ops}
    (flowshop : Flowshop) (parameters : gmap string Q) :
  (forall c c', generation flowshop parameters c c' ->
     duree (overall_best_scheduling c'.1) <= duree (overall_best_scheduling c.1) /\
     (overall_best_scheduling c'.1 = overall_best_scheduling c.1 \/
      duree (overall_best_scheduling c'.1) < duree (overall_best_scheduling c.1) /\
      exists w pop w',
        update_population (population c.1) flowshop parameters
          (swap_neighbors c.1) (insert_neighbors c.1) w = Ok (pop, w') /\
        min_by duree pop = Ok (overall_best_scheduling c'.1))) /\
  (forall n c c', nsteps (generation flowshop parameters) n c c' ->
     duree (overall_best_scheduling c'.1) <= duree (overall_best_scheduling c.1)) /\
  (forall c c', Legacy.generation flowshop c c' ->
     Legacy.best_ordo c'.1 ∈ Legacy.population c'.1 /\
     forall x, x ∈ Legacy.population c'.1 ->
               duree (Legacy.best_ordo c'.1) <= duree x).
Proof.
  assert (Hstep : forall c c', generation flowshop parameters c c' ->
     duree (overall_best_scheduling c'.1) <= duree (overall_best_scheduling c.1) /\
     (overall_best_scheduling c'.1 = overall_best_scheduling c.1 \/
      duree (overall_best_scheduling c'.1) < duree (overall_best_scheduling c.1) /\
      exists w pop w',
        update_population (population c.1) flowshop parameters
          (swap_neighbors c.1) (insert_neighbors c.1) w = Ok (pop, w') /\
        min_by duree pop = Ok (overall_best_scheduling c'.1))).
  { intros [s w] [s' w'] (w1 & _ & Hit). simpl in *.
    apply iteration_Ok in Hit
      as (pop & w2 & best_sched & st & w3 & r & cv & w4 & pop' & rs & w5 &
          Hpop & Hbest & _ & _ & _ & _ & _ & ->).
    simpl. destruct (Z.gtb_spec (duree (overall_best_scheduling s)) (duree best_sched)).
    - split; [lia|]. right. split; [lia|]. eauto.
    - split; [lia|]. by left. }
  split; [exact Hstep|]. split.
  - induction 1 as [|n x y z Hxy _ IH]; [lia|].
    apply Hstep in Hxy as [Hle _]. lia.
  - intros [s w] [s' w'] (w1 & _ & Hit). simpl in *.
    apply legacy_iteration_Ok in Hit
      as (pop1 & w2 & pop2 & w3 & pop3 & w4 & best & _ & _ & _ & Hbest & _ & ->).
    simpl. apply legacy_find_best_spec in Hbest as [Hin Hall].
    split; [done|]. intros x Hx. by eapply Forall_forall in Hall.
Qed.

Lemma best_observed_monotone_witness :
  exists c0 c1,
    prologue (ops := demo_ops false (-1)) tt (demo_parameters 100 4 (1 # 2)) 0%Q = Ok c0 /\
    generation (H0 := demo_ops false (-1)) tt (demo_parameters 100 4 (1 # 2)) c0 c1 /\
    duree (Base := demo_base) (overall_best_scheduling c0.1) = 100 /\
    duree (Base := demo_base) (overall_best_scheduling c1.1) = 99 /\
    duree (Base := demo_base) (overall_best_scheduling c1.1)
    <= duree (Base := demo_base) (overall_best_scheduling c0.1).
Proof.
  exists (demo_state false (-1) [100; 101; 102; 103] [(406 # 4, 100, 103)] 100 [] 0).
  exists (demo_state false (-1) [99; 100; 101; 102]
            [(406 # 4, 100, 103); (402 # 4, 99, 102)] 99 [] 1).
  split; [vm_compute; reflexivity|].
  match goal with
  | |- ?G /\ _ => assert (Hgen : G)
  end.
  { apply (after_generation (ops := demo_ops false (-1))). vm_compute. reflexivity. }
  split; [exact Hgen|]. split; [reflexivity|]. split; [reflexivity|].
  exact (proj1 (proj1 (best_observed_monotone (ops := demo_ops false (-1))
                         (legacy := demo_legacy_ops 1) tt
                         (demo_parameters 100 4 (1 # 2))) _ _ Hgen)).
Defined.

(** * The time budget *)




(** * The statistics history *)

Section History.
Context `{ops : Ops}.
Variables (flowshop : Flowshop) (parameters : gmap string Q).

Lemma prologue_Ok (w : World) (c0 : Locals * World) :
  prologue flowshop parameters w = Ok c0 ->
  exists rp dp bd n w0 w1 initial_statistics w2,
    parameters !! "pop_init_size" = Some n /\
    initial_pop flowshop rp dp bd n w0 = Ok (population c0.1, w1) /\
    population_statistics (population c0.1) w1 = Ok (initial_statistics, w2) /\
    list_statistics c0.1 = [initial_statistics] /\
    min_by duree (population c0.1) = Ok (overall_best_scheduling c0.1) /\
    iterations_where_restart c0.1 = [] /\
    index c0.1 = 0.
Proof.
  unfold prologue. intros Hpro.
  do 5 (apply bind_Ok in Hpro as (? & ? & _ & Hpro)).
  apply bind_Ok in Hpro as (rp & ? & _ & Hpro).
  apply bind_Ok in Hpro as (dp & ? & _ & Hpro).
  apply bind_Ok in Hpro as (bd & ? & _ & Hpro).
  apply bind_Ok in Hpro as (n & w0 & Hn & Hpro).
  apply getitem_Ok in Hn as [Hn _]. simpl in Hn.
  apply bind_Ok in Hpro as (pop & w1 & Hpop & Hpro).
  apply bind_Ok in Hpro as (st & w2 & Hst & Hpro).
  apply bind_Ok in Hpro as (best & w3 & Hbest & Hpro).
  apply lift_Ok in Hbest as [Hbest _].
  apply ret_Ok in Hpro as ->. simpl.
  exists rp, dp, bd, n, w0, w1, st, w2. repeat split; eauto.
Qed.

(** A generation appends one entry and counts one iteration. *)
Lemma generation_appends (c c' : Locals * World) :
  generation flowshop parameters c c' ->
  index c'.1 = index c.1 + 1 /\
  exists statistics, list_statistics c'.1 = list_statistics c.1 ++ [statistics].
Proof.
  destruct c as [s w], c' as [s' w']. intros (w1 & _ & Hit). simpl in *.
  apply iteration_Ok in Hit
    as (pop & w2 & best_sched & st & w3 & r & cv & w4 & pop' & rs & w5 &
        _ & _ & _ & _ & _ & _ & _ & ->).
  simpl. eauto.
Qed.

Lemma generations_append (n : nat) (c c' : Locals * World) :
  nsteps (generation flowshop parameters) n c c' ->
  index c'.1 = index c.1 + Z.of_nat n /\
  exists entries,
    length entries = n /\ list_statistics c'.1 = list_statistics c.1 ++ entries.
Proof.
  induction 1 as [c|n c c1 c' Hgen _ (Hidx & entries & Hlen & Hlst)].
  - split; [lia|]. exists []. by rewrite app_nil_r.
  - apply generation_appends in Hgen as (Hidx1 & st & Hst).
    split; [lia|]. exists (st :: entries). split; [simpl; lia|].
    by rewrite Hlst, Hst, <- app_assoc.
Qed.

End History.

(** C7. When [memetic_heuristic] returns after [n] generations, the history
    that it returns has [n + 1] entries: the one of the initial population
    and one for each generation.  The history after the first [k] of these
    generations is made of the first [k + 1] entries of the returned one:
    each generation appends one entry and leaves the earlier ones as they
    are. *)
Theorem statistics_append_only `{ops : Ops} (flowshop : Flowshop)
    (parameters : gmap string Q) (fuel : nat) (w w' : World) (r : RunResult) :
  memetic_heuristic fuel flowshop parameters w = Ok (Some r, w') ->
  exists n c0 c,
    prologue flowshop parameters w = Ok c0 /\
    length (list_statistics c0.1) = 1%nat /\
    nsteps (generation flowshop parameters) n c0 c /\
    (forall c', ~ generation flowshop parameters c c') /\
    r = result_of c.1 /\
    length r.1.1 = S n /\
    forall k ck,
      nsteps (generation flowshop parameters) k c0 ck ->
      (k <= n)%nat /\ list_statistics ck.1 = take (S k) r.1.1.
Proof.
  unfold memetic_heuristic. intros Hrun.
  apply bind_Ok in Hrun as (s0 & w0 & Hpro & Hrun).
  apply bind_Ok in Hrun as (res & w1 & Hloop & Hrun).
  apply ret_Ok in Hrun as [= Hres ->].
  destruct res as [s|]; [|done]. simpl in Hres. injection Hres as ->.
  apply while_loop_Some in Hloop as (n & w2 & _ & Hsteps & Hstop).
  destruct (prologue_Ok _ _ _ _ Hpro)
    as (rp & dp & bd & sz & u0 & u1 & st & u2 & _ & _ & _ & Hlst0 & _).
  simpl in Hlst0.
  assert (Hlast : forall c', ~ generation flowshop parameters (s, w2) c').
  { intros c' (w3 & Ht & _). simpl in Ht. congruence. }
  destruct (generations_append _ _ _ _ _ Hsteps) as (_ & entries & Hlen & Hlst).
  simpl in Hlst.
  exists n, (s0, w0), (s, w2). simpl.
  split; [done|]. split; [by rewrite Hlst0|]. split; [done|].
  split; [done|]. split; [done|].
  split; [rewrite Hlst, Hlst0; simpl; lia|].
  intros k ck Hk.
  assert (Hkn : (k <= n)%nat).
  { destruct (decide (k <= n)%nat) as [|Hgt]; [done|]. exfalso.
    replace k with (n + S (k - n - 1))%nat in Hk by lia.
    apply nsteps_add_inv in Hk as (cn & Hn & Hmore).
    rewrite <- (nsteps_generation_deterministic _ _ _ _ _ _ Hsteps Hn) in Hmore.
    inversion Hmore as [|? ? c1 ? Hgen _]; subst. by apply (Hlast c1). }
  split; [done|].
  replace n with (k + (n - k))%nat in Hsteps by lia.
  pose proof (nsteps_generation_split _ _ _ _ _ _ _ Hk Hsteps) as Hrest.
  destruct (generations_append _ _ _ _ _ Hk) as (_ & ek & Hlenk & Hlstk).
  destruct (generations_append _ _ _ _ _ Hrest) as (_ & er & _ & Hlstr).
  simpl in Hlstk, Hlstr. rewrite Hlstr. symmetry.
  apply take_app_length'. rewrite Hlstk, Hlst0. simpl. lia.
Qed.

Lemma statistics_append_only_witness :
  exists r w',
    memetic_heuristic (ops := demo_ops false (-1)) 5 tt
      (demo_parameters 20 4 (1 # 2)) 0%Q = Ok (Some r, w') /\
    r.1.1 = [(406 # 4, 100, 103); (402 # 4, 99, 102); (398 # 4, 98, 101);
             (394 # 4, 97, 100)] /\
    exists n, length r.1.1 = S n.
Proof.
  exists ([(406 # 4, 100, 103); (402 # 4, 99, 102); (398 # 4, 98, 101);
           (394 # 4, 97, 100)], 97, []), (demo_clock 11).
  match goal with
  | |- ?G /\ _ => assert (Hrun : G) by (vm_compute; reflexivity)
  end.
  split; [exact Hrun|]. split; [reflexivity|].
  destruct (statistics_append_only (ops := demo_ops false (-1)) _ _ _ _ _ _ Hrun)
    as (n & c0 & c & _ & _ & _ & _ & _ & Hlen & _).
  exists n. exact Hlen.
Defined.

(** * Statistics and restarts *)

(** The entry that a generation appends is the statistics of the population
    that [update_population] returned in it. *)
Lemma generation_entry `{ops : Ops} (flowshop : Flowshop)
    (parameters : gmap string Q) (c c' : Locals * World) :
  generation flowshop parameters c c' ->
  exists pop w1 w2 statistics w3,
    update_population (population c.1) flowshop parameters
      (swap_neighbors c.1) (insert_neighbors c.1) w1 = Ok (pop, w2) /\
    population_statistics pop w2 = Ok (statistics, w3) /\
    list_statistics c'.1 = list_statistics c.1 ++ [statistics].
Proof.
  destruct c as [s w], c' as [s' w']. intros (w1 & _ & Hit). simpl in *.
  apply iteration_Ok in Hit
    as (pop & w2 & best_sched & st & w3 & r & cv & w4 & pop' & rs & w5 &
        Hpop & _ & Hst & _ & _ & _ & _ & ->).
  simpl. eauto 10.
Qed.

(** C10. In a generation that records a restart, the entry appended to the
    history is the statistics of the population that [update_population]
    returned; [restart_population] is called on that population afterwards
    (after the convergence test) and its result is the population at the
    end of the generation.  The entry of the next generation is the
    statistics of what [update_population] makes of the restarted
    population. *)
Theorem statistics_before_restart `{ops : Ops} (flowshop : Flowshop)
    (parameters : gmap string Q) (c c' : Locals * World) :
  generation flowshop parameters c c' ->
  iterations_where_restart c'.1 <> iterations_where_restart c.1 ->
  exists pop w1 w2 statistics w3 convergent w4 preserved_prop w5,
    update_population (population c.1) flowshop parameters
      (swap_neighbors c.1) (insert_neighbors c.1) w1 = Ok (pop, w2) /\
    population_statistics pop w2 = Ok (statistics, w3) /\
    list_statistics c'.1 = list_statistics c.1 ++ [statistics] /\
    is_convergent pop (entropy_threshold c.1) w3 = Ok (convergent, w4) /\
    iterations_where_restart c'.1 = iterations_where_restart c.1 ++ [index c'.1] /\
    parameters !! "preserved_prop" = Some preserved_prop /\
    restart_population pop flowshop preserved_prop w4 = Ok (population c'.1, w5) /\
    forall c2,
      generation flowshop parameters c' c2 ->
      exists pop2 v1 v2 statistics2 v3,
        update_population (population c'.1) flowshop parameters
          (swap_neighbors c'.1) (insert_neighbors c'.1) v1 = Ok (pop2, v2) /\
        population_statistics pop2 v2 = Ok (statistics2, v3) /\
        list_statistics c2.1 = list_statistics c.1 ++ [statistics; statistics2].
Proof.
  destruct c as [s w], c' as [s' w']. intros (w1 & _ & Hit) Hrestart. simpl in *.
  apply iteration_Ok in Hit
    as (pop & w2 & best_sched & st & w3 & r & cv & w4 & pop' & rs & w5 &
        Hpop & _ & Hst & _ & Hcv & Hbranch & _ & ->).
  simpl in *. destruct (cv || r).
  - destruct Hbranch as (-> & p & Hp & Hres).
    exists pop, (time w1).2, w2, st, w3, cv, w4, p, w5.
    repeat (split; [done|]).
    intros c2 Hnext. apply generation_entry in Hnext
      as (pop2 & v1 & v2 & st2 & v3 & Hpop2 & Hst2 & Hlst).
    simpl in *. exists pop2, v1, v2, st2, v3.
    repeat (split; [done|]). by rewrite Hlst, <- app_assoc.
  - by destruct Hbranch as (-> & _).
Qed.

Lemma statistics_before_restart_witness :
  exists c0 c1,
    prologue (ops := demo_ops true 0) tt (demo_parameters 100 4 (1 # 2)) 0%Q = Ok c0 /\
    generation (H0 := demo_ops true 0) tt (demo_parameters 100 4 (1 # 2)) c0 c1 /\
    population c1.1 = [100; 101; 1000; 1000] /\
    list_statistics c1.1 = [(406 # 4, 100, 103); (406 # 4, 100, 103)] /\
    exists statistics, list_statistics c1.1 = list_statistics c0.1 ++ [statistics].
Proof.
  exists (demo_state true 0 [100; 101; 102; 103] [(406 # 4, 100, 103)] 100 [] 0).
  exists (demo_state true 0 [100; 101; 1000; 1000]
            [(406 # 4, 100, 103); (406 # 4, 100, 103)] 100 [1] 1).
  split; [vm_compute; reflexivity|].
  match goal with
  | |- ?G /\ _ => assert (Hgen : G)
  end.
  { apply (after_generation (ops := demo_ops true 0)). vm_compute. reflexivity. }
  split; [exact Hgen|]. split; [reflexivity|]. split; [reflexivity|].
  destruct (statistics_before_restart (ops := demo_ops true 0) _ _ _ _ Hgen)
    as (pop & w1 & w2 & st & w3 & cv & w4 & p & w5 & _ & _ & Hlst & _).
  - simpl. intros Heq. discriminate Heq.
  - exists st. exact Hlst.
Defined.

(** * The size of the population *)

Section Size.
Context `{ops : Ops}.
Variables (flowshop : Flowshop) (parameters : gmap string Q).

(** The operators return as many schedules as they receive. *)
Hypothesis crossover_size : forall pop a b c d w pop' w',
  crossover flowshop pop a b c d w = Ok (pop', w') -> length pop' = length pop.
Hypothesis mutation_size : forall pop a b w pop' w',
  mutation flowshop pop a b w = Ok (pop', w') -> length pop' = length pop.
Hypothesis local_search_size : forall pop a b c d sn inb e w pop' w',
  local_search pop a b c d sn inb e w = Ok (pop', w') -> length pop' = length pop.

Lemma update_population_size pop sn inb w pop' w' :
  update_population pop flowshop parameters sn inb w = Ok (pop', w') ->
  length pop' = length pop.
Proof.
  unfold update_population. intros Hrun.
  do 4 (apply bind_Ok in Hrun as (? & ? & _ & Hrun)).
  apply bind_Ok in Hrun as (pop1 & ? & Hc & Hrun). apply crossover_size in Hc.
  do 2 (apply bind_Ok in Hrun as (? & ? & _ & Hrun)).
  apply bind_Ok in Hrun as (pop2 & ? & Hm & Hrun). apply mutation_size in Hm.
  apply bind_Ok in Hrun as (use_ls & ? & _ & Hrun).
  destruct (truthy use_ls).
  - do 5 (apply bind_Ok in Hrun as (? & ? & _ & Hrun)).
    apply local_search_size in Hrun. lia.
  - apply ret_Ok in Hrun as [= -> _]. lia.
Qed.

End Size.

(** C5, as the specification states it, fails: the controller does not
    bring the population back to its size.  With collaborators that meet
    their contracts and a preserved proportion of -0.5, the restart of a
    population of 4 schedules keeps [int(-2.0) = -2], that is the slice
    [sorted_list[:-2]] of 2 schedules, and asks for [4 - (-2) = 6] fresh
    ones: the population has 8 members after the first generation. *)
Lemma population_size_not_kept :
  let parameters := demo_parameters 100 4 (- 1 # 2) in
  (forall population a b c d w population' w',
     crossover (Ops := demo_ops true 0) tt population a b c d w = Ok (population', w') ->
     length population' = length population) /\
  (forall population a b w population' w',
     mutation (Ops := demo_ops true 0) tt population a b w = Ok (population', w') ->
     length population' = length population) /\
  (forall population a b c d sn inb e w population' w',
     local_search (Ops := demo_ops true 0) population a b c d sn inb e w
     = Ok (population', w') ->
     length population' = length population) /\
  (forall n w fresh w',
     0 <= n -> random_initial_pop (Ops := demo_ops true 0) tt n w = Ok (fresh, w') ->
     len fresh = n) /\
  exists c0 c1,
    prologue (ops := demo_ops true 0) tt parameters 0%Q = Ok c0 /\
    generation (H0 := demo_ops true 0) tt parameters c0 c1 /\
    len (population c0.1) = 4 /\
    len (population c1.1) = 8.
Proof.
  intros parameters.
  split; [intros population a b c d w population' w' Hrun; by injection Hrun as <- _|].
  split; [intros population a b w population' w' Hrun; injection Hrun as <- _;
          apply length_fmap|].
  split; [intros population a b c d sn inb e w population' w' Hrun;
          by injection Hrun as <- _|].
  split.
  { intros n w fresh w' Hn Hfresh. injection Hfresh as <- _.
    unfold len. rewrite length_replicate. lia. }
  exists (demo_state true 0 [100; 101; 102; 103] [(406 # 4, 100, 103)] 100 [] 0).
  exists (demo_state true 0 ([100; 101] ++ replicate 6 1000)
            [(406 # 4, 100, 103); (406 # 4, 100, 103)] 100 [1] 1).
  split; [vm_compute; reflexivity|].
  split; [|split; reflexivity].
  apply (after_generation (ops := demo_ops true 0)). vm_compute. reflexivity.
Qed.

(** C5, amended. When the collaborators meet their contracts ([crossover],
    [mutation] and [local_search] return as many schedules as they
    receive, [initial_pop] and [random_initial_pop] as many as they are
    asked for), the preserved proportion lies between 0 and 1 and
    [pop_init_size] is below [2 ^ 53], [update_population] returns a
    population of the size of its argument, [restart_population] does so
    for fewer than [2 ^ 53] schedules, and the population has
    [pop_init_size] members at the start and at the end of every generation
    of a run. *)
Theorem population_size_invariant `{ops : Ops} (flowshop : Flowshop)
    (parameters : gmap string Q) (size : Z) :
  parameters !! "pop_init_size" = Some (inject_Z size) ->
  size < 2 ^ 53 ->
  (forall p, parameters !! "preserved_prop" = Some p -> (0 <= p <= 1)%Q) ->
  (forall rp dp bd w pop w',
     initial_pop flowshop rp dp bd (inject_Z size) w = Ok (pop, w') ->
     len pop = size) ->
  (forall n w fresh w',
     0 <= n -> random_initial_pop flowshop n w = Ok (fresh, w') -> len fresh = n) ->
  (forall pop a b c d w pop' w',
     crossover flowshop pop a b c d w = Ok (pop', w') -> length pop' = length pop) ->
  (forall pop a b w pop' w',
     mutation flowshop pop a b w = Ok (pop', w') -> length pop' = length pop) ->
  (forall pop a b c d sn inb e w pop' w',
     local_search pop a b c d sn inb e w = Ok (pop', w') ->
     length pop' = length pop) ->
  (forall pop sn inb w pop' w',
     update_population pop flowshop parameters sn inb w = Ok (pop', w') ->
     len pop' = len pop) /\
  (forall pop p w pop' w',
     len pop < 2 ^ 53 ->
     parameters !! "preserved_prop" = Some p ->
     restart_population pop flowshop p w = Ok (pop', w') ->
     len pop' = len pop) /\
  (forall w c0 n c,
     prologue flowshop parameters w = Ok c0 ->
     nsteps (generation flowshop parameters) n c0 c ->
     len (population c0.1) = size /\ len (population c.1) = size).
Proof.
  intros Hsize Hsmall Hprop Hinit Hrandom Hcross Hmut Hls.
  assert (Hupdate : forall pop sn inb w pop' w',
     update_population pop flowshop parameters sn inb w = Ok (pop', w') ->
     len pop' = len pop).
  { intros pop sn inb w pop' w' Hrun. unfold len. f_equal.
    by eapply update_population_size. }
  assert (Hrestart : forall pop p w pop' w',
     len pop < 2 ^ 53 ->
     parameters !! "preserved_prop" = Some p ->
     restart_population pop flowshop p w = Ok (pop', w') ->
     len pop' = len pop).
  { intros pop p w pop' w' Hlen Hp Hrun. unfold len. f_equal.
    eapply restart_population_length; [by apply Hprop|exact Hlen| |exact Hrun].
    intros n v fresh v' Hn Hfresh. by eapply Hrandom. }
  assert (Hgen : forall c c', generation flowshop parameters c c' ->
     len (population c.1) = size -> len (population c'.1) = size).
  { intros [s w] [s' w'] (w1 & _ & Hit) Hlen. simpl in *.
    apply iteration_Ok in Hit
      as (pop & w2 & best_sched & st & w3 & r & cv & w4 & pop' & rs & w5 &
          Hpop & _ & _ & _ & _ & Hbranch & _ & ->).
    simpl. apply Hupdate in Hpop. destruct (cv || r).
    - destruct Hbranch as (_ & p & Hp & Hres).
      apply Hrestart in Hres; [lia|lia|exact Hp].
    - destruct Hbranch as (_ & -> & _). lia. }
  split; [exact Hupdate|]. split; [exact Hrestart|].
  intros w c0 n c Hpro Hsteps.
  assert (H0 : len (population c0.1) = size).
  { apply prologue_Ok in Hpro
      as (rp & dp & bd & sz & u0 & u1 & st & u2 & Hsz & Hpop & _).
    rewrite Hsize in Hsz. injection Hsz as <-. by eapply Hinit. }
  split; [done|]. clear Hpro.
  induction Hsteps as [|n c0 c1 c Hstep _ IH]; [done|].
  apply IH. by apply (Hgen c0 c1).
Qed.

Lemma population_size_invariant_witness :
  exists c0 c,
    prologue (ops := demo_ops true 0) tt (demo_parameters 100 4 (1 # 2)) 0%Q = Ok c0 /\
    nsteps (generation (H0 := demo_ops true 0) tt (demo_parameters 100 4 (1 # 2)))
      3 c0 c /\
    iterations_where_restart c.1 = [1; 2; 3] /\
    len (population c.1) = 4.
Proof.
  exists (demo_state true 0 [100; 101; 102; 103] [(406 # 4, 100, 103)] 100 [] 0).
  exists (demo_state true 0 [100; 101; 1000; 1000]
            [(406 # 4, 100, 103); (406 # 4, 100, 103); (2201 # 4, 100, 1000);
             (2201 # 4, 100, 1000)] 100 [1; 2; 3] 3).
  match goal with
  | |- ?G /\ _ => assert (Hpro : G) by (vm_compute; reflexivity)
  end.
  split; [exact Hpro|].
  match goal with
  | |- ?G /\ _ => assert (Hsteps : G)
  end.
  { apply (after_nsteps (ops := demo_ops true 0)). vm_compute. reflexivity. }
  split; [exact Hsteps|]. split; [reflexivity|].
  refine (proj2 (proj2 (proj2 (population_size_invariant (ops := demo_ops true 0)
            tt (demo_parameters 100 4 (1 # 2)) 4 _ _ _ _ _ _ _ _)) _ _ _ _ Hpro Hsteps)).
  - reflexivity.
  - reflexivity.
  - intros p Hp. change (Some (1 # 2) = Some p) in Hp. injection Hp as <-.
    split; discriminate.
  - intros rp dp bd w pop w' Hpop. injection Hpop as <- _. reflexivity.
  - intros n w fresh w' Hn Hfresh. injection Hfresh as <- _.
    unfold len. rewrite length_replicate. lia.
  - intros pop a b c d w pop' w' Hrun. by injection Hrun as <- _.
  - intros pop a b w pop' w' Hrun. injection Hrun as <- _. apply length_fmap.
  - intros pop a b c d sn inb e w pop' w' Hrun. by injection Hrun as <- _.
Defined.

(** * The stagnation test *)

Lemma max_from_spec (best : Z) (l : list Z) :
  (max_from best l = best \/ max_from best l ∈ l) /\
  best <= max_from best l /\ Forall (fun x => x <= max_from best l) l.
Proof.
  revert best. induction l as [|x t IH]; intros best; simpl.
  - split; [by left|]. split; [lia|constructor].
  - destruct (IH (if best <? x then x else best)) as (Hin & Hle & Hall).
    destruct (Z.ltb_spec best x) as [Hlt|Hge].
    + split; [right; destruct Hin as [->|Hin]; [left|by right]|].
      split; [lia|]. constructor; [lia|done].
    + split; [destruct Hin as [->|Hin]; [by left|right; by right]|].
      split; [lia|]. constructor; [lia|done].
Qed.

(** The least and the greatest value of a list are equal exactly when the
    list repeats one value. *)
Lemma extremes_equal (l : list Z) (lo hi : Z) :
  py_min l = Ok lo -> py_max l = Ok hi ->
  lo = hi <-> exists v, l = replicate (length l) v.
Proof.
  destruct l as [|x t]; [done|]. unfold py_min. simpl. intros [= Hlo] [= Hhi].
  pose proof (min_from_spec (fun d : Z => d) x t) as Hmin. cbv zeta in Hmin.
  rewrite Hlo in Hmin. destruct Hmin as (Hlo_in & Hlo_x & Hlo_all).
  pose proof (max_from_spec x t) as (Hhi_in & Hhi_x & Hhi_all).
  rewrite Hhi in Hhi_in, Hhi_x, Hhi_all.
  split.
  - intros <-. exists lo. symmetry. assert (Hx : x = lo) by lia. subst x.
    change (replicate (length (lo :: t)) lo = lo :: t).
    apply replicate_as_Forall. split; [done|].
    constructor; [done|].
    apply Forall_forall. intros y Hy.
    apply (proj1 (Forall_forall _ _) Hlo_all) in Hy as Hy1.
    apply (proj1 (Forall_forall _ _) Hhi_all) in Hy as Hy2. lia.
  - intros (v & Hv). simpl in Hv. injection Hv as Hxv Ht. subst v.
    assert (Hall : forall y, y ∈ t -> y = x).
    { intros y Hy. rewrite Ht in Hy. by apply elem_of_replicate_inv in Hy. }
    destruct Hlo_in as [->|Hlo_in]; [|apply Hall in Hlo_in as ->];
      (destruct Hhi_in as [->|Hhi_in]; [|apply Hall in Hhi_in as ->]); done.
Qed.

(** With ten entries or more, the window is made of the last ten ones. *)
Lemma window_recent (list_statistics : list Stats) :
  (10 <= length list_statistics)%nat ->
  window list_statistics
  = item1 <$> drop (length list_statistics - 10) list_statistics /\
  length (window list_statistics) = 10%nat.
Proof.
  intros Hlen. unfold window, len.
  replace (Z.to_nat (Z.max 0 (Z.of_nat (length list_statistics) - 10)))
    with (length list_statistics - 10)%nat by lia.
  split; [done|]. rewrite length_fmap, length_drop. lia.
Qed.

(** The stagnation test never raises, and it answers [True] exactly when
    there are ten entries, no recorded restart less than ten generations
    back, and ten equal minima in the last ten entries. *)
Lemma stagnation_spec (list_statistics : list Stats) (restarts : list Z) (index : Z) :
  StronglySorted Z.lt restarts ->
  exists restart,
    stagnation list_statistics restarts index = Ok restart /\
    (restart = true <->
     (10 <= length list_statistics)%nat /\
     (forall r, r ∈ restarts -> r + 10 <= index) /\
     exists v,
       item1 <$> drop (length list_statistics - 10) list_statistics
       = replicate 10 v).
Proof.
  intros Hsorted. unfold stagnation.
  destruct (Z.gtb_spec (len list_statistics) 9) as [Hlen|Hlen]; unfold len in Hlen.
  2:{ exists false. split; [done|]. split; [done|]. intros (? & _). lia. }
  destruct (window_recent list_statistics) as [Hwin Hwlen]; [lia|].
  rewrite Hwin in *.
  set (recent := item1 <$> drop (length list_statistics - 10) list_statistics) in *.
  assert (Hrecent : forall b,
    (match py_min recent, py_max recent with
     | Ok lo, Ok hi => Ok (lo =? hi)
     | Raise e, _ => Raise e
     | _, Raise e => Raise e
     end = Ok b) -> (b = true <-> exists v, recent = replicate 10 v)).
  { intros b. destruct (py_min recent) as [lo|] eqn:Hlo; [|done].
    destruct (py_max recent) as [hi|] eqn:Hhi; [|done]. intros [= <-].
    rewrite Z.eqb_eq, (extremes_equal recent lo hi Hlo Hhi), Hwlen. done. }
  assert (Hdef : exists b,
    match py_min recent, py_max recent with
    | Ok lo, Ok hi => Ok (lo =? hi)
    | Raise e, _ => Raise e
    | _, Raise e => Raise e
    end = Ok b).
  { destruct recent as [|x t]; [done|]. unfold py_min. simpl. eauto. }
  destruct Hdef as [b Hb]. specialize (Hrecent b Hb).
  destruct (last restarts) as [r|] eqn:Hlast.
  - apply last_Some in Hlast as [l' ->].
    destruct (Z.geb_spec index (r + 10)) as [Hfar|Hnear].
    + exists b. split; [done|]. rewrite Hrecent. split.
      * intros Hv. split; [lia|]. split; [|done].
        intros x Hx. apply elem_of_app in Hx as [Hx|Hx].
        -- pose proof (StronglySorted_app_1_elem_of Z.lt l' [r] x r Hsorted Hx) as Hlt.
           assert (x < r) by (apply Hlt; left). lia.
        -- apply list_elem_of_singleton in Hx as ->. lia.
      * by intros (_ & _ & Hv).
    + exists false. split; [done|]. split; [done|]. intros (_ & Hall & _).
      assert (r + 10 <= index); [|lia].
      apply Hall. apply elem_of_app. right. left.
  - apply last_None in Hlast as ->.
    exists b. split; [done|]. rewrite Hrecent. split.
    + intros Hv. split; [lia|]. split; [|done]. intros r Hr. by apply elem_of_nil in Hr.
    + by intros (_ & _ & Hv).
Qed.

Section Restarts.
Context `{ops : Ops}.
Variables (flowshop : Flowshop) (parameters : gmap string Q).

(** What a generation does to the list of restarts: it appends its index
    when the stagnation test or the convergence test says so, and only
    then. *)
Lemma generation_restarts (c c' : Locals * World) :
  generation flowshop parameters c c' ->
  index c'.1 = index c.1 + 1 /\
  exists restart convergent pop w w',
    stagnation (list_statistics c'.1) (iterations_where_restart c.1) (index c'.1)
    = Ok restart /\
    is_convergent pop (entropy_threshold c.1) w = Ok (convergent, w') /\
    iterations_where_restart c'.1
    = if convergent || restart
      then iterations_where_restart c.1 ++ [index c'.1]
      else iterations_where_restart c.1.
Proof.
  destruct c as [s w], c' as [s' w']. intros (w1 & _ & Hit). simpl in *.
  apply iteration_Ok in Hit
    as (pop & w2 & best_sched & st & w3 & r & cv & w4 & pop' & rs & w5 &
        _ & _ & _ & Hstag & Hcv & Hbranch & _ & ->).
  simpl. split; [done|]. exists r, cv, pop, w3, w4.
  split; [done|]. split; [done|].
  destruct (cv || r); by destruct Hbranch as [-> _].
Qed.

Lemma stagnation_fired_restarts (c c' : Locals * World) :
  generation flowshop parameters c c' ->
  stagnation_fired c.1 c'.1 ->
  iterations_where_restart c'.1 = iterations_where_restart c.1 ++ [index c'.1].
Proof.
  intros Hgen Hfired. apply generation_restarts in Hgen
    as (_ & r & cv & pop & w & w' & Hstag & _ & ->).
  unfold stagnation_fired in Hfired. rewrite Hfired in Hstag.
  injection Hstag as <-. by rewrite orb_true_r.
Qed.

Lemma generation_restarts_in_order (c c' : Locals * World) :
  generation flowshop parameters c c' ->
  restarts_in_order c.1 -> restarts_in_order c'.1.
Proof.
  intros Hgen [Hsorted Hbound]. apply generation_restarts in Hgen
    as (Hidx & r & cv & pop & w & w' & _ & _ & Hrs).
  unfold restarts_in_order. rewrite Hrs, Hidx. destruct (cv || r).
  - split.
    + apply StronglySorted_app_2; [|done|repeat constructor].
      intros x1 x2 Hx1 Hx2. apply list_elem_of_singleton in Hx2 as ->.
      apply (proj1 (Forall_forall _ _) Hbound) in Hx1. lia.
    + apply Forall_app. split; [|repeat constructor; lia].
      eapply Forall_impl; [exact Hbound|]. simpl. intros; lia.
  - split; [done|]. eapply Forall_impl; [exact Hbound|]. simpl. intros; lia.
Qed.

Lemma run_restarts_in_order (w : World) (c0 c : Locals * World) (n : nat) :
  prologue flowshop parameters w = Ok c0 ->
  nsteps (generation flowshop parameters) n c0 c ->
  restarts_in_order c.1 /\ index c.1 = Z.of_nat n /\
  length (list_statistics c.1) = S n.
Proof.
  intros Hpro Hsteps.
  apply prologue_Ok in Hpro
    as (rp & dp & bd & sz & u0 & u1 & st & u2 & _ & _ & _ & Hlst & _ & Hrs & Hidx).
  destruct (generations_append _ _ _ _ _ Hsteps) as (Hn & entries & Hlen & Happ).
  split; [|split; [lia|rewrite Happ, Hlst; simpl; lia]].
  assert (H0 : restarts_in_order c0.1).
  { unfold restarts_in_order. rewrite Hrs. split; constructor. }
  clear -H0 Hsteps. induction Hsteps as [|n c0 c1 c Hstep _ IH]; [done|].
  apply IH. by eapply generation_restarts_in_order.
Qed.

End Restarts.

(** C3. In the generation of index [k] of a run, the stagnation test
    answers [True] exactly when the history (with the entry of this
    generation) has at least ten entries, every restart recorded so far is
    at least ten generations back, and the minimum component of the last
    ten entries is ten times the same value; a restart is then recorded at
    [k]. *)
Theorem stagnation_trigger `{ops : Ops} (flowshop : Flowshop)
    (parameters : gmap string Q) (w : World) (c0 c c' : Locals * World) (n : nat) :
  prologue flowshop parameters w = Ok c0 ->
  nsteps (generation flowshop parameters) n c0 c ->
  generation flowshop parameters c c' ->
  let k := index c'.1 in
  let recent :=
    item1 <$> drop (length (list_statistics c'.1) - 10) (list_statistics c'.1) in
  k = Z.of_nat n + 1 /\
  length (list_statistics c'.1) = S (S n) /\
  (stagnation_fired c.1 c'.1 <->
   (10 <= length (list_statistics c'.1))%nat /\
   (forall r, r ∈ iterations_where_restart c.1 -> r + 10 <= k) /\
   exists v, recent = replicate 10 v) /\
  (stagnation_fired c.1 c'.1 ->
   iterations_where_restart c'.1 = iterations_where_restart c.1 ++ [k]).
Proof.
  intros Hpro Hsteps Hgen k recent. subst k recent.
  destruct (run_restarts_in_order _ _ _ _ _ _ Hpro Hsteps) as ([Hsorted _] & Hidx & Hlen).
  destruct (generation_appends _ _ _ _ Hgen) as (Hk & st & Hlst).
  split; [lia|].
  split; [rewrite Hlst, length_app; simpl; lia|].
  split; [|by apply (stagnation_fired_restarts flowshop parameters)].
  destruct (stagnation_spec (list_statistics c'.1) (iterations_where_restart c.1)
              (index c'.1) Hsorted) as (b & Hb & Hiff).
  unfold stagnation_fired. rewrite Hb. rewrite <- Hiff.
  split; [by intros [= ->]|by intros ->].
Qed.

Lemma stagnation_trigger_witness :
  exists c0 c c',
    prologue (ops := demo_ops false 0) tt (demo_parameters 100 4 (1 # 2)) 0%Q = Ok c0 /\
    nsteps (generation (H0 := demo_ops false 0) tt (demo_parameters 100 4 (1 # 2)))
      8 c0 c /\
    generation (H0 := demo_ops false 0) tt (demo_parameters 100 4 (1 # 2)) c c' /\
    item1 <$> list_statistics c'.1 = replicate 10 100 /\
    iterations_where_restart c.1 = [] /\
    stagnation_fired (H0 := demo_ops false 0) c.1 c'.1 /\
    iterations_where_restart c'.1 = [9].
Proof.
  exists (demo_state false 0 [100; 101; 102; 103] [(406 # 4, 100, 103)] 100 [] 0).
  exists (demo_state false 0 [100; 101; 102; 103]
            (replicate 9 (406 # 4, 100, 103)) 100 [] 8).
  exists (demo_state false 0 [100; 101; 1000; 1000]
            (replicate 10 (406 # 4, 100, 103)) 100 [9] 9).
  match goal with
  | |- ?G /\ _ => assert (Hpro : G) by (vm_compute; reflexivity)
  end.
  split; [exact Hpro|].
  match goal with
  | |- ?G /\ _ => assert (Hsteps : G)
  end.
  { apply (after_nsteps (ops := demo_ops false 0)). vm_compute. reflexivity. }
  split; [exact Hsteps|].
  match goal with
  | |- ?G /\ _ => assert (Hgen : G)
  end.
  { apply (after_generation (ops := demo_ops false 0)). vm_compute. reflexivity. }
  split; [exact Hgen|]. split; [reflexivity|]. split; [reflexivity|].
  destruct (stagnation_trigger (ops := demo_ops false 0) tt
              (demo_parameters 100 4 (1 # 2)) 0%Q _ _ _ 8 Hpro Hsteps Hgen)
    as (_ & _ & Hiff & Hrestart).
  match goal with
  | |- ?G /\ _ => assert (Hfired : G)
  end.
  2:{ split; [exact Hfired|]. exact (Hrestart Hfired). }
  apply Hiff. split; [simpl; lia|]. split.
  - intros r Hr. simpl in Hr. by apply elem_of_nil in Hr.
  - exists 100. reflexivity.
Defined.

(** * The rate of the restarts *)

Section RateLimit.
Context `{ops : Ops}.
Variables (flowshop : Flowshop) (parameters : gmap string Q).

(** The stagnation test answers [True] only ten generations or more after
    the last recorded restart. *)
Lemma stagnation_after_last (list_statistics : list Stats) (restarts : list Z)
    (index r : Z) :
  stagnation list_statistics restarts index = Ok true ->
  last restarts = Some r -> r + 10 <= index.
Proof.
  unfold stagnation. intros Hstag Hlast. rewrite Hlast in Hstag.
  destruct (len list_statistics >? 9); [|done].
  destruct (Z.geb_spec index (r + 10)); [lia|done].
Qed.

(** Once a restart is recorded at [k], the last recorded restart stays at
    [k] or later. *)
Lemma last_restart_grows (k : Z) (c c' : Locals * World) :
  rtc (generation flowshop parameters) c c' ->
  (exists r, last (iterations_where_restart c.1) = Some r /\ k <= r <= index c.1) ->
  exists r, last (iterations_where_restart c'.1) = Some r /\ k <= r <= index c'.1.
Proof.
  induction 1 as [c|c c1 c' Hgen _ IH]; [done|].
  intros (r & Hlast & Hr). apply IH.
  apply generation_restarts in Hgen
    as (Hidx & b & cv & pop & w & w' & _ & _ & Hrs).
  rewrite Hrs. destruct (cv || b).
  - exists (index c1.1). rewrite last_snoc. split; [done|]. lia.
  - exists r. split; [done|]. lia.
Qed.

End RateLimit.

(** C6. Two restarts that the stagnation test triggers in a run are at
    least ten generations apart.  The convergence test has no such limit:
    with a detector that always answers [True], every generation records a
    restart. *)
Theorem restart_rate_limit `{ops : Ops} (flowshop : Flowshop)
    (parameters : gmap string Q) :
  (forall c0 c1 c2 c3,
     generation flowshop parameters c0 c1 ->
     stagnation_fired c0.1 c1.1 ->
     rtc (generation flowshop parameters) c1 c2 ->
     generation flowshop parameters c2 c3 ->
     stagnation_fired c2.1 c3.1 ->
     index c1.1 + 10 <= index c3.1) /\
  ((forall pop threshold w,
      exists w', is_convergent pop threshold w = Ok (true, w')) ->
   forall c c',
     generation flowshop parameters c c' ->
     iterations_where_restart c'.1 = iterations_where_restart c.1 ++ [index c'.1]).
Proof.
  split.
  - intros c0 c1 c2 c3 Hgen1 Hfired1 Hrun Hgen3 Hfired3.
    pose proof (stagnation_fired_restarts _ _ _ _ Hgen1 Hfired1) as Hrs1.
    destruct (last_restart_grows flowshop parameters (index c1.1) c1 c2 Hrun)
      as (r & Hlast & Hr).
    { exists (index c1.1). rewrite Hrs1, last_snoc. split; [done|]. lia. }
    unfold stagnation_fired in Hfired3.
    pose proof (stagnation_after_last _ _ _ _ Hfired3 Hlast). lia.
  - intros Hconv c c' Hgen. apply generation_restarts in Hgen
      as (_ & b & cv & pop & w & w' & _ & Hcv & ->).
    destruct (Hconv pop (entropy_threshold c.1) w) as [w'' Htrue].
    rewrite Htrue in Hcv. by injection Hcv as <- _.
Qed.

Lemma restart_rate_limit_witness :
  (exists c0 c8 c9 c18 c19,
     prologue (ops := demo_ops false 0) tt (demo_parameters 130 4 (1 # 2)) 0%Q = Ok c0 /\
     after (H0 := demo_ops false 0) 8 tt (demo_parameters 130 4 (1 # 2)) c0 = Some c8 /\
     after (H0 := demo_ops false 0) 1 tt (demo_parameters 130 4 (1 # 2)) c8 = Some c9 /\
     after (H0 := demo_ops false 0) 9 tt (demo_parameters 130 4 (1 # 2)) c9 = Some c18 /\
     after (H0 := demo_ops false 0) 1 tt (demo_parameters 130 4 (1 # 2)) c18 = Some c19 /\
     iterations_where_restart c19.1 = [9; 19] /\
     index c9.1 + 10 <= index c19.1) /\
  (exists c0 c2,
     prologue (ops := demo_ops true 0) tt (demo_parameters 130 4 (1 # 2)) 0%Q = Ok c0 /\
     after (H0 := demo_ops true 0) 2 tt (demo_parameters 130 4 (1 # 2)) c0 = Some c2 /\
     iterations_where_restart c2.1 = [1; 2]).
Proof.
  split.
  - exists (demo_state false 0 [100; 101; 102; 103] [(406 # 4, 100, 103)] 100 [] 0).
    exists (demo_state false 0 [100; 101; 102; 103]
              (replicate 9 (406 # 4, 100, 103)) 100 [] 8).
    exists (demo_state false 0 [100; 101; 1000; 1000]
              (replicate 10 (406 # 4, 100, 103)) 100 [9] 9).
    exists (demo_state false 0 [100; 101; 1000; 1000]
              (replicate 10 (406 # 4, 100, 103) ++ replicate 9 (2201 # 4, 100, 1000))
              100 [9] 18).
    exists (demo_state false 0 [100; 101; 1000; 1000]
              (replicate 10 (406 # 4, 100, 103) ++ replicate 10 (2201 # 4, 100, 1000))
              100 [9; 19] 19).
    split; [vm_compute; reflexivity|].
    match goal with
    | |- ?G /\ _ => assert (H8 : G) by (vm_compute; reflexivity)
    end.
    split; [exact H8|].
    match goal with
    | |- ?G /\ _ => assert (H9 : G) by (vm_compute; reflexivity)
    end.
    split; [exact H9|].
    match goal with
    | |- ?G /\ _ => assert (H18 : G) by (vm_compute; reflexivity)
    end.
    split; [exact H18|].
    match goal with
    | |- ?G /\ _ => assert (H19 : G) by (vm_compute; reflexivity)
    end.
    split; [exact H19|]. split; [reflexivity|].
    refine (proj1 (restart_rate_limit (ops := demo_ops false 0) tt
                     (demo_parameters 130 4 (1 # 2))) _ _ _ _ _ _ _ _ _).
    + exact (after_generation _ _ _ _ H9).
    + vm_compute. reflexivity.
    + eapply rtc_nsteps_2. exact (proj1 (after_nsteps _ _ _ _ _) H18).
    + exact (after_generation _ _ _ _ H19).
    + vm_compute. reflexivity.
  - exists (demo_state true 0 [100; 101; 102; 103] [(406 # 4, 100, 103)] 100 [] 0).
    exists (demo_state true 0 [100; 101; 1000; 1000]
              [(406 # 4, 100, 103); (406 # 4, 100, 103); (2201 # 4, 100, 1000)]
              100 [1; 2] 2).
    split; [vm_compute; reflexivity|].
    match goal with
    | |- ?G /\ _ => assert (H2 : G) by (vm_compute; reflexivity)
    end.
    split; [exact H2|]. reflexivity.
Defined.

(** * Missing and invalid parameters *)

(** C8, as the specification states it, fails: the controller checks no
    range and raises no configuration error.  With a negative time limit
    the run returns normally, with the initial entry only; with a preserved
    proportion of 2 it runs its three generations and restarts at each;
    without the key ['preserved_prop'] it runs its three generations and
    returns, as no restart asks for the key. *)
Lemma invalid_parameters_accepted :
  memetic_heuristic (ops := demo_ops false 0) 5 tt
    (demo_parameters (-1) 4 (1 # 2)) 0%Q
  = Ok (Some ([(406 # 4, 100, 103)], 100, []), demo_clock 2) /\
  (exists statistics w',
     memetic_heuristic (ops := demo_ops true 0) 5 tt
       (demo_parameters 20 4 2) 0%Q
     = Ok (Some (statistics, 100, [1; 2; 3]), w') /\ length statistics = 4%nat) /\
  (exists statistics w',
     delete "preserved_prop" (demo_parameters 20 4 (1 # 2)) !! "preserved_prop" = None /\
     memetic_heuristic (ops := demo_ops false 0) 5 tt
       (delete "preserved_prop" (demo_parameters 20 4 (1 # 2))) 0%Q
     = Ok (Some (statistics, 100, []), w') /\ length statistics = 4%nat).
Proof.
  split; [vm_compute; reflexivity|]. split.
  - exists (replicate 4 (406 # 4, 100, 103)), (demo_clock 11).
    split; [vm_compute; reflexivity|reflexivity].
  - exists (replicate 4 (406 # 4, 100, 103)), (demo_clock 11).
    split; [reflexivity|].
    split; [vm_compute; reflexivity|reflexivity].
Qed.

(** The prologue reads four parameters. *)
Lemma prologue_keys `{ops : Ops} (flowshop : Flowshop) (parameters : gmap string Q)
    (w : World) (c0 : Locals * World) (key : string) :
  prologue flowshop parameters w = Ok c0 ->
  key ∈ ["pop_init_size"; "random_prop"; "deter_prop"; "best_deter"] ->
  is_Some (parameters !! key).
Proof.
  unfold prologue. intros Hpro Hkey.
  do 3 (apply bind_Ok in Hpro as (? & ? & _ & Hpro)).
  apply bind_Ok in Hpro as (n & ? & Hn & Hpro).
  apply getitem_Ok in Hn as [Hn _].
  apply bind_Ok in Hpro as (? & ? & _ & Hpro).
  apply bind_Ok in Hpro as (rp & ? & Hrp & Hpro).
  apply getitem_Ok in Hrp as [Hrp _].
  apply bind_Ok in Hpro as (dp & ? & Hdp & Hpro).
  apply getitem_Ok in Hdp as [Hdp _].
  apply bind_Ok in Hpro as (bd & ? & Hbd & _).
  apply getitem_Ok in Hbd as [Hbd _].
  simpl in *.
  repeat (apply elem_of_cons in Hkey as [->|Hkey]; [eauto|]).
  by apply elem_of_nil in Hkey.
Qed.

(** Why the prologue raises. *)
Lemma prologue_Raise `{ops : Ops} (flowshop : Flowshop) (parameters : gmap string Q)
    (w : World) (e : Exn) :
  prologue flowshop parameters w = Raise e ->
  (exists key,
     key ∈ ["pop_init_size"; "random_prop"; "deter_prop"; "best_deter"] /\
     parameters !! key = None /\ e = KeyError key) \/
  prologue_failure flowshop e.
Proof.
  unfold prologue, prologue_failure, bind, time_time, getitem, lift, ret.
  destruct (time w) as [t w1].
  destruct (create_swap_neighbors flowshop w1) as [[sn w2]|e1] eqn:Hsn.
  2:{ intros [= <-]. right. left. eauto. }
  destruct (create_insert_neighbors flowshop w2) as [[inb w3]|e1] eqn:Hin.
  2:{ intros [= <-]. right. right. left. eauto. }
  destruct (parameters !! "pop_init_size") as [n|] eqn:Hn.
  2:{ intros [= <-]. left. exists "pop_init_size".
      split; [apply list_elem_of_In; simpl; tauto|done]. }
  destruct (initialize_threshold n w3) as [[thr w4]|e1] eqn:Hthr.
  2:{ intros [= <-]. right. do 2 right. left. eauto. }
  destruct (parameters !! "random_prop") as [rp|] eqn:Hrp.
  2:{ intros [= <-]. left. exists "random_prop".
      split; [apply list_elem_of_In; simpl; tauto|done]. }
  destruct (parameters !! "deter_prop") as [dp|] eqn:Hdp.
  2:{ intros [= <-]. left. exists "deter_prop".
      split; [apply list_elem_of_In; simpl; tauto|done]. }
  destruct (parameters !! "best_deter") as [bd|] eqn:Hbd.
  2:{ intros [= <-]. left. exists "best_deter".
      split; [apply list_elem_of_In; simpl; tauto|done]. }
  destruct (initial_pop flowshop rp dp bd n w4) as [[pop w5]|e1] eqn:Hpop.
  2:{ intros [= <-]. right. do 3 right. left. eauto 10. }
  destruct (population_statistics pop w5) as [[st w6]|e1] eqn:Hst.
  2:{ intros [= <-]. right. do 4 right. left. eauto. }
  destruct pop as [|x pop]; simpl; [|done].
  intros [= <-]. right. do 5 right. split; [done|]. eauto 10.
Qed.

(** C8, amended. When one of the parameters that the controller reads
    before the first iteration (['pop_init_size'], ['random_prop'],
    ['deter_prop'], ['best_deter'], ['time_limit']) is missing, the run
    raises before any generation: in the prologue or in the first
    evaluation of the test of the loop.  The exception is the [KeyError] of
    one of these keys that is missing, unless a collaborator that the
    prologue calls raised one or [min] raised [ValueError] on an empty
    initial population. *)
Theorem missing_parameter_raises `{ops : Ops} (flowshop : Flowshop)
    (parameters : gmap string Q) (key : string) (fuel : nat) (w : World) :
  key ∈ ["pop_init_size"; "random_prop"; "deter_prop"; "best_deter"; "time_limit"] ->
  parameters !! key = None ->
  exists e,
    memetic_heuristic (S fuel) flowshop parameters w = Raise e /\
    (prologue flowshop parameters w = Raise e \/
     exists c0,
       prologue flowshop parameters w = Ok c0 /\
       loop_test parameters c0.1 c0.2 = Raise e) /\
    ((exists missing,
        missing ∈ ["pop_init_size"; "random_prop"; "deter_prop"; "best_deter";
                   "time_limit"] /\
        parameters !! missing = None /\ e = KeyError missing) \/
     prologue_failure flowshop e).
Proof.
  intros Hkey Hmissing. unfold memetic_heuristic.
  destruct (prologue flowshop parameters w) as [[s0 w0]|e] eqn:Hpro.
  - assert (Htl : parameters !! "time_limit" = None).
    { destruct (decide (key = "time_limit")) as [->|Hne]; [done|].
      destruct (prologue_keys flowshop parameters w (s0, w0) key Hpro) as [v Hv].
      - repeat (apply elem_of_cons in Hkey as [->|Hkey];
                [apply list_elem_of_In; simpl; tauto|]).
        by apply elem_of_nil in Hkey.
      - congruence. }
    assert (Htest : loop_test parameters s0 w0 = Raise (KeyError "time_limit")).
    { unfold loop_test, bind, time_time. destruct (time w0) as [t w1].
      by rewrite (getitem_missing _ _ _ Htl). }
    exists (KeyError "time_limit"). split; [|split].
    + unfold bind at 1. rewrite Hpro. simpl. unfold bind. by rewrite Htest.
    + right. exists (s0, w0). done.
    + left. exists "time_limit".
      split; [apply list_elem_of_In; simpl; tauto|done].
  - exists e. split; [|split; [by left|]].
    + unfold bind. by rewrite Hpro.
    + apply prologue_Raise in Hpro as [(k & Hk & Hnone & ->)|Hfail]; [|by right].
      left. exists k. split; [|done].
      apply list_elem_of_In in Hk. apply list_elem_of_In. simpl in *. tauto.
Qed.

Lemma missing_parameter_raises_witness :
  (delete "time_limit" (demo_parameters 20 4 (1 # 2)) !! "time_limit" = None /\
   memetic_heuristic (ops := demo_ops false 0) 1 tt
     (delete "time_limit" (demo_parameters 20 4 (1 # 2))) 0%Q
   = Raise (KeyError "time_limit")) /\
  (delete "random_prop" (demo_parameters 20 4 (1 # 2)) !! "random_prop" = None /\
   memetic_heuristic (ops := demo_ops false 0) 1 tt
     (delete "random_prop" (demo_parameters 20 4 (1 # 2))) 0%Q
   = Raise (KeyError "random_prop")).
Proof.
  split.
  - split; [reflexivity|].
    destruct (missing_parameter_raises (ops := demo_ops false 0) tt
                (delete "time_limit" (demo_parameters 20 4 (1 # 2)))
                "time_limit" O 0%Q) as (e & Hrun & _ & _).
    + apply list_elem_of_In; simpl; tauto.
    + reflexivity.
    + assert (Hvalue : memetic_heuristic (ops := demo_ops false 0) 1 tt
                         (delete "time_limit" (demo_parameters 20 4 (1 # 2))) 0%Q
                       = Raise (KeyError "time_limit")) by (vm_compute; reflexivity).
      exact Hvalue.
  - split; [reflexivity|].
    destruct (missing_parameter_raises (ops := demo_ops false 0) tt
                (delete "random_prop" (demo_parameters 20 4 (1 # 2)))
                "random_prop" O 0%Q) as (e & Hrun & _ & Hwhy).
    + apply list_elem_of_In; simpl; tauto.
    + reflexivity.
    + assert (Hvalue : memetic_heuristic (ops := demo_ops false 0) 1 tt
                         (delete "random_prop" (demo_parameters 20 4 (1 # 2))) 0%Q
                       = Raise (KeyError "random_prop")) by (vm_compute; reflexivity).
      exact Hvalue.
Defined.

(** * Further properties of the selection of the best schedules *)

Section Selection.
Context `{ops : Ops}.

(** X1. [extract_best_from_population] for every size asked for, negative or
    larger than the population included: it returns the first [m] schedules
    of the ascending sort, where [m] is the size asked for cut down to the
    size of the population, or for a negative size what is left when that
    many schedules are taken away; the schedules returned and the ones left
    out make up the population, and none of the former is longer than any
    of the latter. *)
Theorem extract_best_from_population_any_size (population : list Sched)
    (preserved_size : Z) :
  let n := len population in
  let m := if 0 <=? preserved_size then Z.min preserved_size n
           else Z.max 0 (n + preserved_size) in
  let kept := extract_best_from_population population preserved_size in
  len kept = m /\
  StronglySorted (key_le duree) kept /\
  exists dropped,
    kept ++ dropped ≡ₚ population /\
    forall a b, a ∈ kept -> b ∈ dropped -> duree a <= duree b.
Proof.
  intros n m kept.
  assert (Hkept : kept = take (Z.to_nat m) (sorted_by duree population)).
  { unfold kept, extract_best_from_population, slice_to, m.
    assert (Hlen : len (sorted_by duree population) = n)
      by (unfold len, n; by rewrite sorted_by_length).
    rewrite Hlen.
    destruct (Z.leb_spec 0 preserved_size); [|f_equal; lia].
    destruct (Z.min_spec preserved_size n) as [[Hlt ->]|[Hge ->]]; [done|].
    rewrite !take_ge; [done|unfold n, len in *..];
      rewrite sorted_by_length; lia. }
  assert (Hsorted : StronglySorted (key_le duree)
            (kept ++ drop (Z.to_nat m) (sorted_by duree population))).
  { rewrite Hkept, take_drop. apply sorted_by_sorted. }
  split; [|split].
  - rewrite Hkept. unfold len. rewrite length_take, sorted_by_length.
    unfold m, n, len. destruct (Z.leb_spec 0 preserved_size); lia.
  - by apply StronglySorted_app_1_l in Hsorted.
  - exists (drop (Z.to_nat m) (sorted_by duree population)). split.
    + rewrite Hkept, take_drop. apply sorted_by_perm.
    + intros a b Ha Hb.
      by apply (StronglySorted_app_1_elem_of (key_le duree) _ _ a b Hsorted).
Qed.

(** The sort keeps the order that schedules of equal duration have in the
    population... *)
Lemma insert_by_filter (d : Z) (x : Sched) (l : list Sched) :
  filter (fun s => duree s = d) (insert_by duree x l)
  = filter (fun s => duree s = d) (x :: l).
Proof.
  induction l as [|y t IH]; [done|]. simpl.
  destruct (Z.leb_spec (duree x) (duree y)) as [Hle|Hlt]; [done|].
  rewrite filter_cons, IH, !filter_cons.
  destruct (decide (duree y = d)), (decide (duree x = d)); try done. lia.
Qed.

Lemma sorted_by_filter (d : Z) (l : list Sched) :
  filter (fun s => duree s = d) (sorted_by duree l)
  = filter (fun s => duree s = d) l.
Proof.
  induction l as [|x t IH]; [done|]. simpl.
  by rewrite insert_by_filter, !filter_cons, IH.
Qed.

(** X2. Among the schedules of one duration,
    [extract_best_from_population] keeps the first ones of the population,
    in their order. *)
Theorem extract_best_from_population_ties (population : list Sched)
    (preserved_size d : Z) :
  filter (fun s => duree s = d)
    (extract_best_from_population population preserved_size)
  `prefix_of` filter (fun s => duree s = d) population.
Proof.
  unfold extract_best_from_population, slice_to.
  rewrite <- (sorted_by_filter d population).
  set (l := sorted_by duree population).
  destruct (0 <=? preserved_size).
  - rewrite <- (take_drop (Z.to_nat preserved_size) l) at 2.
    rewrite filter_app. by apply prefix_app_r.
  - rewrite <- (take_drop (Z.to_nat (len l + preserved_size)) l) at 3.
    rewrite filter_app. by apply prefix_app_r.
Qed.

(** X3. With a preserved proportion of 1 or more and fewer than [2 ^ 53]
    schedules, a restart raises [OverflowError] when the binary64 product
    overflows; otherwise it keeps the whole population, in ascending order,
    and asks [random_initial_pop] for a number of schedules that is not
    positive. *)
Theorem restart_population_keeps_all (population : list Sched)
    (flowshop : Flowshop) (p : Q) :
  (1 <= p)%Q ->
  len population < 2 ^ 53 ->
  match int_of_product (len population) p with
  | Raise e =>
      e = OverflowError /\
      forall w, restart_population population flowshop p w = Raise OverflowError
  | Ok k =>
      len population - k <= 0 /\
      forall w,
        restart_population population flowshop p w =
        match random_initial_pop flowshop (len population - k) w with
        | Ok (fresh, w') => Ok (sorted_by duree population ++ fresh, w')
        | Raise e => Raise e
        end
  end.
Proof.
  intros Hp Hsmall.
  pose proof (int_of_product_ge (len population) p
                ltac:(unfold len in *; lia) Hp) as Hge.
  destruct (int_of_product (len population) p) as [k|e] eqn:Hk.
  - split; [lia|]. intros w.
    rewrite (restart_population_unfold _ _ _ k) by (done || (unfold len in *; lia)).
    by rewrite take_ge by (rewrite sorted_by_length; unfold len in *; lia).
  - split; [done|]. intros w. subst e.
    unfold restart_population, bind, lift. by rewrite Hk.
Qed.

End Selection.

Lemma restart_population_keeps_all_witness :
  (1 <= 2)%Q /\
  len [30; 10; 40; 20] < 2 ^ 53 /\
  forall w : Q,
    restart_population (ops := demo_ops false 0) [30; 10; 40; 20] tt 2 w
    = Ok ([10; 20; 30; 40], w).
Proof.
  assert (Hp : (1 <= 2)%Q) by discriminate.
  assert (Hsmall : len [30; 10; 40; 20] < 2 ^ 53) by reflexivity.
  split; [exact Hp|]. split; [exact Hsmall|]. intros w.
  pose proof (restart_population_keeps_all (ops := demo_ops false 0)
                [30; 10; 40; 20] tt 2 Hp Hsmall) as Hall.
  change (int_of_product (len [30; 10; 40; 20]) 2) with (Ok 8 : Result Z) in Hall.
  rewrite (proj2 Hall w). reflexivity.
Defined.

(** X13. [find_best_ordo_in_list] of [src/memetic.py] selects the schedule that
    [min(population, key=duree)] selects in [src/src/memetic.py]; on the
    empty list the former raises [IndexError], the latter [ValueError]. *)
Theorem find_best_ordo_in_list_min `{legacy : Legacy.Ops} (list_ordo : list Sched) :
  Legacy.find_best_ordo_in_list list_ordo =
  match list_ordo with
  | [] => Raise IndexError
  | _ :: _ => min_by duree list_ordo
  end /\
  min_by duree ([] : list Sched) = Raise ValueError.
Proof.
  split; [|done].
  destruct list_ordo as [|x t]; [done|].
  unfold Legacy.find_best_ordo_in_list, min_by.
  rewrite legacy_find_best_from. f_equal.
  rewrite min_from_unfold. by rewrite Z.ltb_irrefl.
Qed.

Lemma extract_best_from_population_any_size_witness :
  extract_best_from_population (H := demo_base) [30; 10; 40; 20] (-1)
  = [10; 20; 30] /\
  extract_best_from_population (H := demo_base) [30; 10; 40; 20] 9
  = [10; 20; 30; 40] /\
  len (extract_best_from_population (H := demo_base) [30; 10; 40; 20] (-1)) = 3.
Proof.
  split; [reflexivity|]. split; [reflexivity|].
  exact (proj1 (extract_best_from_population_any_size (H := demo_base)
                  [30; 10; 40; 20] (-1))).
Defined.

(** * Further properties of [update_population] *)

Section Pipeline.
Context `{ops : Ops}.
Variables (flowshop : Flowshop) (parameters : gmap string Q).

Lemma getitem_present (key : string) (v : Q) (w : World) :
  parameters !! key = Some v -> getitem parameters key w = Ok (v, w).
Proof. unfold getitem. by intros ->. Qed.

(** X4. When ['use_ls'] is zero ([False], [0] or [0.0]), [update_population] is
    the crossover followed by the mutation: the local search is not called,
    and neither the neighbours nor the parameters of the local search are
    looked at. *)
Theorem update_population_without_local_search (population : list Sched)
    (swap_neighbors insert_neighbors : Neighbors) (c1 c2 cp g ms mi use_ls : Q) :
  parameters !! "cross_1_point_prob" = Some c1 ->
  parameters !! "cross_2_points_prob" = Some c2 ->
  parameters !! "cross_position_prob" = Some cp ->
  parameters !! "gentrification" = Some g ->
  parameters !! "mut_swap_prob" = Some ms ->
  parameters !! "mut_insert_prob" = Some mi ->
  parameters !! "use_ls" = Some use_ls ->
  (use_ls == 0)%Q ->
  forall w,
    update_population population flowshop parameters swap_neighbors insert_neighbors w
    = match crossover flowshop population c1 c2 cp g w with
      | Ok (crossed, w1) => mutation flowshop crossed ms mi w1
      | Raise e => Raise e
      end.
Proof.
  intros Hc1 Hc2 Hcp Hg Hms Hmi Hls Hzero w.
  assert (Hfalse : truthy use_ls = false).
  { unfold truthy. apply negb_false_iff. by apply Qeq_bool_iff. }
  unfold update_population, bind.
  rewrite (getitem_present _ _ _ Hc1), (getitem_present _ _ _ Hc2),
    (getitem_present _ _ _ Hcp), (getitem_present _ _ _ Hg).
  destruct (crossover flowshop population c1 c2 cp g w) as [[crossed w1]|e]; [|done].
  rewrite (getitem_present _ _ _ Hms), (getitem_present _ _ _ Hmi).
  destruct (mutation flowshop crossed ms mi w1) as [[mutated w2]|e]; [|done].
  by rewrite (getitem_present _ _ _ Hls), Hfalse.
Qed.

(** X5. When a parameter of the crossover is missing, [update_population]
    raises the [KeyError] of the first missing one, in the order
    ['cross_1_point_prob'], ['cross_2_points_prob'],
    ['cross_position_prob'], ['gentrification'] in which it reads them,
    before it calls any operator. *)
Theorem update_population_missing_key (before after : list string) (first : string) :
  ["cross_1_point_prob"; "cross_2_points_prob"; "cross_position_prob";
   "gentrification"] = before ++ first :: after ->
  (forall key, key ∈ before -> is_Some (parameters !! key)) ->
  parameters !! first = None ->
  forall population swap_neighbors insert_neighbors w,
    update_population population flowshop parameters swap_neighbors
      insert_neighbors w = Raise (KeyError first).
Proof.
  intros Hkeys Hbefore Hfirst population swap_neighbors insert_neighbors w.
  unfold update_population, bind.
  destruct before as [|k1 before]; simpl in Hkeys.
  { injection Hkeys as <- _. by rewrite (getitem_missing _ _ _ Hfirst). }
  injection Hkeys as <- Hkeys.
  destruct (Hbefore "cross_1_point_prob" ltac:(left)) as [c1 Hc1].
  rewrite (getitem_present _ _ _ Hc1).
  destruct before as [|k2 before]; simpl in Hkeys.
  { injection Hkeys as <- _. by rewrite (getitem_missing _ _ _ Hfirst). }
  injection Hkeys as <- Hkeys.
  destruct (Hbefore "cross_2_points_prob" ltac:(right; left)) as [c2 Hc2].
  rewrite (getitem_present _ _ _ Hc2).
  destruct before as [|k3 before]; simpl in Hkeys.
  { injection Hkeys as <- _. by rewrite (getitem_missing _ _ _ Hfirst). }
  injection Hkeys as <- Hkeys.
  destruct (Hbefore "cross_position_prob" ltac:(right; right; left)) as [cp Hcp].
  rewrite (getitem_present _ _ _ Hcp).
  destruct before as [|k4 before]; simpl in Hkeys.
  { injection Hkeys as <- _. by rewrite (getitem_missing _ _ _ Hfirst). }
  injection Hkeys as _ Hkeys. by destruct before.
Qed.

(** X6. A generation whose operators return an empty population raises
    [ValueError], the error of [min] on an empty list; and the prologue
    returns only with a population that is not empty. *)
Theorem empty_population_raises :
  (forall s w w2,
     update_population (population s) flowshop parameters (swap_neighbors s)
       (insert_neighbors s) (time w).2 = Ok ([], w2) ->
     iteration flowshop parameters s w = Raise ValueError) /\
  (forall w c0,
     prologue flowshop parameters w = Ok c0 -> population c0.1 <> []).
Proof.
  split.
  - intros s w w2 Hempty.
    unfold iteration, bind, time_time. destruct (time w) as [t w1].
    simpl in Hempty. by rewrite Hempty.
  - intros w c0 Hpro. apply prologue_Ok in Hpro
      as (rp & dp & bd & n & u0 & u1 & st & u2 & _ & _ & _ & _ & Hmin & _).
    by destruct (population c0.1).
Qed.

End Pipeline.

Lemma update_population_without_local_search_witness :
  update_population (ops := demo_ops false 1) [30; 10] tt
    (<["use_ls" := 0%Q]> (demo_parameters 10 2 (1 # 2))) tt tt (demo_clock 1)
  = Ok ([31; 11], demo_clock 1).
Proof.
  rewrite (update_population_without_local_search (ops := demo_ops false 1) tt
             (<["use_ls" := 0%Q]> (demo_parameters 10 2 (1 # 2))) [30; 10] tt tt
             (1 # 3) (1 # 3) (1 # 3) 1 (1 # 2) (1 # 2) 0);
    reflexivity.
Defined.

Lemma update_population_missing_key_witness :
  let parameters :=
    delete "cross_2_points_prob"
      (delete "gentrification" (demo_parameters 10 2 (1 # 2))) in
  parameters !! "cross_2_points_prob" = None /\
  parameters !! "gentrification" = None /\
  update_population (ops := demo_ops false 1) [30; 10] tt parameters tt tt 0%Q
  = Raise (KeyError "cross_2_points_prob").
Proof.
  intros parameters. split; [reflexivity|]. split; [reflexivity|].
  apply (update_population_missing_key (ops := demo_ops false 1) tt parameters
           ["cross_1_point_prob"] ["cross_position_prob"; "gentrification"]
           "cross_2_points_prob").
  - reflexivity.
  - intros key Hkey. apply list_elem_of_singleton in Hkey as ->.
    exists (1 # 3)%Q. reflexivity.
  - reflexivity.
Defined.

Lemma empty_population_raises_witness :
  iteration (ops := demo_ops false 1) tt (demo_parameters 10 0 (1 # 2))
    (demo_state false 1 [] [(0%Q, 0, 0)] 7 [] 0).1 (demo_clock 1)
  = Raise ValueError /\
  prologue (ops := demo_ops false 1) tt (demo_parameters 10 4 (1 # 2)) 0%Q
  = Ok (demo_state false 1 [100; 101; 102; 103] [(406 # 4, 100, 103)] 100 [] 0) /\
  [100; 101; 102; 103] <> ([] : list Z).
Proof.
  split.
  - refine (proj1 (empty_population_raises (ops := demo_ops false 1) tt
                     (demo_parameters 10 0 (1 # 2))) _ _ (demo_clock 2) _).
    reflexivity.
  - match goal with
    | |- ?G /\ _ => assert (Hpro : G) by (vm_compute; reflexivity)
    end.
    split; [exact Hpro|].
    exact (proj2 (empty_population_raises (ops := demo_ops false 1) tt
                    (demo_parameters 10 4 (1 # 2))) _ _ Hpro).
Defined.

(** * Further properties of a run *)

Section Run.
Context `{ops : Ops}.
Variables (flowshop : Flowshop) (parameters : gmap string Q).

(** What [memetic_heuristic] returns is read off the locals at the first
    failure of the test of the loop. *)
Lemma memetic_heuristic_Ok (fuel : nat) (w w' : World) (r : RunResult) :
  memetic_heuristic fuel flowshop parameters w = Ok (Some r, w') ->
  exists n c0 c,
    prologue flowshop parameters w = Ok c0 /\
    nsteps (generation flowshop parameters) n c0 c /\
    loop_test parameters c.1 c.2 = Ok (false, w') /\
    r = result_of c.1.
Proof.
  unfold memetic_heuristic. intros Hrun.
  apply bind_Ok in Hrun as (s0 & w0 & Hpro & Hrun).
  apply bind_Ok in Hrun as (res & w1 & Hloop & Hrun).
  apply ret_Ok in Hrun as [= Hres ->].
  destruct res as [s|]; [|done]. simpl in Hres. injection Hres as ->.
  apply while_loop_Some in Hloop as (n & w2 & _ & Hsteps & Hstop).
  by exists n, (s0, w0), (s, w2).
Qed.

(** The best schedule before and after a generation, and the population
    that the operators made in it. *)
Lemma generation_best (c c' : Locals * World) :
  generation flowshop parameters c c' ->
  exists pop w',
    update_population (population c.1) flowshop parameters (swap_neighbors c.1)
      (insert_neighbors c.1) (time (time c.2).2).2 = Ok (pop, w') /\
    duree (overall_best_scheduling c'.1) <= duree (overall_best_scheduling c.1) /\
    (forall x, x ∈ pop -> duree (overall_best_scheduling c'.1) <= duree x) /\
    (overall_best_scheduling c'.1 = overall_best_scheduling c.1 \/
     overall_best_scheduling c'.1 ∈ pop).
Proof.
  destruct c as [s w], c' as [s' w']. intros (w1 & Ht & Hit). simpl in *.
  apply loop_test_Ok in Ht as (tl & _ & -> & _).
  apply iteration_Ok in Hit
    as (pop & w2 & best_sched & st & w3 & r & cv & w4 & pop' & rs & w5 &
        Hpop & Hbest & _ & _ & _ & _ & _ & ->).
  simpl. exists pop, w2. split; [done|].
  apply min_by_spec in Hbest as [Hin Hall].
  destruct (Z.gtb_spec (duree (overall_best_scheduling s)) (duree best_sched)).
  - split; [lia|]. split; [|by right].
    intros x Hx. by apply (proj1 (Forall_forall _ _) Hall).
  - split; [lia|]. split; [|by left].
    intros x Hx. apply (proj1 (Forall_forall _ _) Hall) in Hx. lia.
Qed.

Lemma generations_best (n : nat) (c c' : Locals * World) :
  nsteps (generation flowshop parameters) n c c' ->
  duree (overall_best_scheduling c'.1) <= duree (overall_best_scheduling c.1).
Proof.
  induction 1 as [|n c c1 c' Hgen _ IH]; [lia|].
  apply generation_best in Hgen as (pop & w' & _ & Hle & _). lia.
Qed.

(** X7. The best schedule of a run is at most as long as every schedule that
    the run has seen: those of the initial population and those of the
    population that the operators returned in each generation. *)
Theorem best_is_least_of_all_seen (w : World) (c0 c : Locals * World) (n : nat) :
  prologue flowshop parameters w = Ok c0 ->
  nsteps (generation flowshop parameters) n c0 c ->
  (forall x, x ∈ population c0.1 -> duree (overall_best_scheduling c.1) <= duree x) /\
  (forall k ck pop w',
     (k < n)%nat ->
     nsteps (generation flowshop parameters) k c0 ck ->
     update_population (population ck.1) flowshop parameters (swap_neighbors ck.1)
       (insert_neighbors ck.1) (time (time ck.2).2).2 = Ok (pop, w') ->
     forall x, x ∈ pop -> duree (overall_best_scheduling c.1) <= duree x).
Proof.
  intros Hpro Hsteps. split.
  - intros x Hx. apply prologue_Ok in Hpro
      as (rp & dp & bd & sz & u0 & u1 & st & u2 & _ & _ & _ & _ & Hmin & _).
    apply min_by_spec in Hmin as [_ Hall].
    apply (proj1 (Forall_forall _ _) Hall) in Hx.
    pose proof (generations_best _ _ _ Hsteps). lia.
  - intros k ck pop w' Hk Hsk Hpop x Hx.
    replace n with (k + S (n - k - 1))%nat in Hsteps by lia.
    pose proof (nsteps_generation_split _ _ _ _ _ _ _ Hsk Hsteps) as Hrest.
    inversion Hrest as [|? ? ck1 ? Hgen Hlater]; subst.
    apply generation_best in Hgen as (pop1 & w1 & Hpop1 & _ & Hall & _).
    rewrite Hpop in Hpop1. injection Hpop1 as <- <-.
    pose proof (generations_best _ _ _ Hlater). specialize (Hall x Hx). lia.
Qed.

(** X8. The restarts that a run returns are in strictly increasing order, and
    each of them is the index of one of its generations: between 1 and the
    number of entries of the history after the first. *)
Theorem restarts_are_generations (fuel : nat) (w w' : World)
    (statistics : list Stats) (best : Sched) (restarts : list Z) :
  memetic_heuristic fuel flowshop parameters w = Ok (Some (statistics, best, restarts), w') ->
  StronglySorted Z.lt restarts /\
  forall r, r ∈ restarts -> 1 <= r <= len statistics - 1.
Proof.
  intros Hrun. apply memetic_heuristic_Ok in Hrun
    as (n & c0 & c & Hpro & Hsteps & _ & [= -> -> ->]).
  destruct (run_restarts_in_order _ _ _ _ _ _ Hpro Hsteps)
    as ([Hsorted Hbound] & Hidx & Hlen).
  split; [done|]. intros r Hr. split.
  - apply prologue_Ok in Hpro
      as (rp & dp & bd & sz & u0 & u1 & st & u2 & _ & _ & _ & _ & _ & Hrs & Hi0).
    clear Hsorted Hbound Hidx Hlen.
    assert (Hinv : 0 <= index c0.1 /\
                   Forall (fun r => 1 <= r) (iterations_where_restart c0.1)).
    { rewrite Hrs, Hi0. split; [lia|constructor]. }
    clear Hrs Hi0.
    induction Hsteps as [c|n c c1 c' Hgen _ IH].
    + by apply (proj1 (Forall_forall _ _) (proj2 Hinv)).
    + apply IH; [done|]. destruct Hinv as [Hi Hall].
      apply generation_restarts in Hgen
        as (Hidx & b & cv & pop & u & u' & _ & _ & Hrs).
      rewrite Hrs, Hidx. split; [lia|].
      destruct (cv || b); [|done].
      apply Forall_app. split; [done|]. repeat constructor. lia.
  - apply (proj1 (Forall_forall _ _) Hbound) in Hr. unfold len. lia.
Qed.

(** X9. Without the key ['preserved_prop'] no generation that records a restart
    completes: a run that returns has made no restart. *)
Theorem no_restart_without_preserved_prop (fuel : nat) (w w' : World) (r : RunResult) :
  parameters !! "preserved_prop" = None ->
  memetic_heuristic fuel flowshop parameters w = Ok (Some r, w') ->
  r.2 = [].
Proof.
  intros Hmissing Hrun. apply memetic_heuristic_Ok in Hrun
    as (n & c0 & c & Hpro & Hsteps & _ & ->).
  apply prologue_Ok in Hpro
    as (rp & dp & bd & sz & u0 & u1 & st & u2 & _ & _ & _ & _ & _ & Hrs & _).
  simpl. rewrite <- Hrs. clear Hrs.
  induction Hsteps as [|n c0 c1 c [w1 [_ Hit]] _ IH]; [done|].
  rewrite IH. destruct c0 as [s0 v0], c1 as [s1 v1]. simpl in *.
  apply iteration_Ok in Hit
    as (pop & w2 & best_sched & st' & w3 & b & cv & w4 & pop' & rs & w5 &
        _ & _ & _ & _ & _ & Hbranch & _ & ->).
  simpl. destruct (cv || b).
  - destruct Hbranch as (_ & p & Hp & _). congruence.
  - by destruct Hbranch as (-> & _).
Qed.

(** X10. With a time limit that is not positive and a clock that has not gone
    back since the start, no generation runs: the run returns the entry and
    the best schedule of the initial population, and no restart. *)
Theorem no_generation_without_time (fuel : nat) (w : World) (c0 : Locals * World)
    (time_limit : Q) :
  prologue flowshop parameters w = Ok c0 ->
  parameters !! "time_limit" = Some time_limit ->
  (time_limit <= 0)%Q ->
  (start_time c0.1 <= (time c0.2).1)%Q ->
  exists initial_statistics,
    list_statistics c0.1 = [initial_statistics] /\
    min_by duree (population c0.1) = Ok (overall_best_scheduling c0.1) /\
    memetic_heuristic (S fuel) flowshop parameters w
    = Ok (Some ([initial_statistics], overall_best_scheduling c0.1, []),
          (time c0.2).2).
Proof.
  intros Hpro Hlimit Hneg Hclock.
  destruct (prologue_Ok _ _ _ _ Hpro)
    as (rp & dp & bd & sz & u0 & u1 & st & u2 & _ & _ & _ & Hlst & Hmin & Hrs & _).
  assert (Hit : iteration_time c0.1 = 0%Q).
  { destruct c0 as [s0 w0]. unfold prologue in Hpro.
    repeat (apply bind_Ok in Hpro as (? & ? & _ & Hpro)).
    by apply ret_Ok in Hpro as [= -> _]. }
  exists st. split; [done|]. split; [done|].
  assert (Hstop : loop_test parameters c0.1 c0.2 = Ok (false, (time c0.2).2)).
  { apply loop_test_Ok. exists time_limit. repeat split; [done|].
    symmetry. apply Qltb_ge. rewrite Hit. lra. }
  destruct c0 as [s0 w0]. simpl in *.
  unfold memetic_heuristic, bind. rewrite Hpro. simpl. unfold bind.
  rewrite Hstop. unfold ret, result_of. simpl. by rewrite Hlst, Hrs.
Qed.

(** X11. The stagnation test answers [True] for the first time in the ninth
    generation at the earliest. *)
Theorem no_stagnation_before_nine (w : World) (c0 c c' : Locals * World) (n : nat) :
  prologue flowshop parameters w = Ok c0 ->
  nsteps (generation flowshop parameters) n c0 c ->
  generation flowshop parameters c c' ->
  stagnation_fired c.1 c'.1 ->
  9 <= index c'.1.
Proof.
  intros Hpro Hsteps Hgen Hfired.
  assert (Hrun : nsteps (generation flowshop parameters) (n + 1) c0 c').
  { eapply nsteps_trans; [exact Hsteps|]. by apply nsteps_once. }
  destruct (run_restarts_in_order _ _ _ _ _ _ Hpro Hrun) as (_ & Hidx & Hlen).
  unfold stagnation_fired, stagnation in Hfired.
  destruct (Z.gtb_spec (len (list_statistics c'.1)) 9) as [Hten|]; [|done].
  unfold len in Hten. lia.
Qed.

(** X12. A recorded restart, whatever triggered it, keeps the stagnation test
    from answering [True] in the nine generations that follow. *)
Theorem restart_postpones_stagnation (c0 c1 c2 c3 : Locals * World) :
  generation flowshop parameters c0 c1 ->
  iterations_where_restart c1.1 <> iterations_where_restart c0.1 ->
  rtc (generation flowshop parameters) c1 c2 ->
  generation flowshop parameters c2 c3 ->
  stagnation_fired c2.1 c3.1 ->
  index c1.1 + 10 <= index c3.1.
Proof.
  intros Hgen1 Hrestart Hrun Hgen3 Hfired.
  apply generation_restarts in Hgen1
    as (_ & b & cv & pop & u & u' & _ & _ & Hrs).
  destruct (cv || b); [|done].
  destruct (last_restart_grows flowshop parameters (index c1.1) c1 c2 Hrun)
    as (r & Hlast & Hr).
  { exists (index c1.1). rewrite Hrs, last_snoc. split; [done|]. lia. }
  pose proof (stagnation_after_last _ _ _ _ Hfired Hlast). lia.
Qed.

End Run.

Lemma best_is_least_of_all_seen_witness :
  exists c0 c,
    prologue (ops := demo_ops false (-1)) tt (demo_parameters 100 4 (1 # 2)) 0%Q = Ok c0 /\
    nsteps (generation (H0 := demo_ops false (-1)) tt (demo_parameters 100 4 (1 # 2)))
      1 c0 c /\
    population c0.1 = [100; 101; 102; 103] /\
    overall_best_scheduling c.1 = 99 /\
    forall x, x ∈ population c0.1 ->
              duree (Base := demo_base) (overall_best_scheduling c.1)
              <= duree (Base := demo_base) x.
Proof.
  exists (demo_state false (-1) [100; 101; 102; 103] [(406 # 4, 100, 103)] 100 [] 0).
  exists (demo_state false (-1) [99; 100; 101; 102]
            [(406 # 4, 100, 103); (402 # 4, 99, 102)] 99 [] 1).
  match goal with
  | |- ?G /\ _ => assert (Hpro : G) by (vm_compute; reflexivity)
  end.
  split; [exact Hpro|].
  match goal with
  | |- ?G /\ _ => assert (Hsteps : G)
  end.
  { apply (after_nsteps (ops := demo_ops false (-1))). vm_compute. reflexivity. }
  split; [exact Hsteps|]. split; [reflexivity|]. split; [reflexivity|].
  exact (proj1 (best_is_least_of_all_seen (ops := demo_ops false (-1)) tt
                  (demo_parameters 100 4 (1 # 2)) _ _ _ _ Hpro Hsteps)).
Defined.

Lemma restarts_are_generations_witness :
  memetic_heuristic (ops := demo_ops true 0) 5 tt (demo_parameters 20 4 (1 # 2)) 0%Q
  = Ok (Some ([(406 # 4, 100, 103); (406 # 4, 100, 103); (2201 # 4, 100, 1000);
               (2201 # 4, 100, 1000)], 100, [1; 2; 3]), demo_clock 11) /\
  StronglySorted Z.lt [1; 2; 3] /\
  forall r, r ∈ [1; 2; 3] -> 1 <= r <= 3.
Proof.
  match goal with
  | |- ?G /\ _ => assert (Hrun : G) by (vm_compute; reflexivity)
  end.
  split; [exact Hrun|].
  exact (restarts_are_generations (ops := demo_ops true 0) _ _ _ _ _ _ _ _ Hrun).
Defined.

Lemma no_restart_without_preserved_prop_witness :
  delete "preserved_prop" (demo_parameters 20 4 (1 # 2)) !! "preserved_prop" = None /\
  memetic_heuristic (ops := demo_ops false 0) 5 tt
    (delete "preserved_prop" (demo_parameters 20 4 (1 # 2))) 0%Q
  = Ok (Some (replicate 4 (406 # 4, 100, 103), 100, []), demo_clock 11) /\
  (replicate 4 (406 # 4, 100, 103) : list Stats, 100, [] : list Z).2 = [].
Proof.
  match goal with
  | |- ?G /\ _ => assert (Hmissing : G) by reflexivity
  end.
  split; [exact Hmissing|].
  match goal with
  | |- ?G /\ _ => assert (Hrun : G) by (vm_compute; reflexivity)
  end.
  split; [exact Hrun|].
  exact (no_restart_without_preserved_prop (ops := demo_ops false 0) _ _ _ _ _ _
           Hmissing Hrun).
Defined.

Lemma no_generation_without_time_witness :
  memetic_heuristic (ops := demo_ops false 0) 1 tt (demo_parameters (-1) 4 (1 # 2)) 0%Q
  = Ok (Some ([(406 # 4, 100, 103)], 100, []), demo_clock 2).
Proof.
  destruct (no_generation_without_time (ops := demo_ops false 0) tt
              (demo_parameters (-1) 4 (1 # 2)) O 0%Q
              (demo_state false 0 [100; 101; 102; 103] [(406 # 4, 100, 103)] 100 [] 0)
              (-1)) as (st & Hst & _ & Hrun).
  - vm_compute. reflexivity.
  - reflexivity.
  - discriminate.
  - discriminate.
  - rewrite Hrun. injection Hst as <-. reflexivity.
Defined.

Lemma no_stagnation_before_nine_witness :
  exists c0 c c',
    prologue (ops := demo_ops false 0) tt (demo_parameters 100 4 (1 # 2)) 0%Q = Ok c0 /\
    nsteps (generation (H0 := demo_ops false 0) tt (demo_parameters 100 4 (1 # 2)))
      8 c0 c /\
    generation (H0 := demo_ops false 0) tt (demo_parameters 100 4 (1 # 2)) c c' /\
    stagnation_fired (H0 := demo_ops false 0) c.1 c'.1 /\
    9 <= index c'.1.
Proof.
  exists (demo_state false 0 [100; 101; 102; 103] [(406 # 4, 100, 103)] 100 [] 0).
  exists (demo_state false 0 [100; 101; 102; 103]
            (replicate 9 (406 # 4, 100, 103)) 100 [] 8).
  exists (demo_state false 0 [100; 101; 1000; 1000]
            (replicate 10 (406 # 4, 100, 103)) 100 [9] 9).
  match goal with
  | |- ?G /\ _ => assert (Hpro : G) by (vm_compute; reflexivity)
  end.
  split; [exact Hpro|].
  match goal with
  | |- ?G /\ _ => assert (Hsteps : G)
  end.
  { apply (after_nsteps (ops := demo_ops false 0)). vm_compute. reflexivity. }
  split; [exact Hsteps|].
  match goal with
  | |- ?G /\ _ => assert (Hgen : G)
  end.
  { apply (after_generation (ops := demo_ops false 0)). vm_compute. reflexivity. }
  split; [exact Hgen|].
  match goal with
  | |- ?G /\ _ => assert (Hfired : G) by (vm_compute; reflexivity)
  end.
  split; [exact Hfired|].
  exact (no_stagnation_before_nine (ops := demo_ops false 0) tt
           (demo_parameters 100 4 (1 # 2)) _ _ _ _ _ Hpro Hsteps Hgen Hfired).
Defined.

Lemma restart_postpones_stagnation_witness :
  exists c8 c9 c18 c19,
    generation (H0 := demo_ops false 0) tt (demo_parameters 130 4 (1 # 2)) c8 c9 /\
    iterations_where_restart c9.1 <> iterations_where_restart c8.1 /\
    rtc (generation (H0 := demo_ops false 0) tt (demo_parameters 130 4 (1 # 2))) c9 c18 /\
    generation (H0 := demo_ops false 0) tt (demo_parameters 130 4 (1 # 2)) c18 c19 /\
    stagnation_fired (H0 := demo_ops false 0) c18.1 c19.1 /\
    index c9.1 = 9 /\ index c19.1 = 19 /\
    index c9.1 + 10 <= index c19.1.
Proof.
  exists (demo_state false 0 [100; 101; 102; 103]
            (replicate 9 (406 # 4, 100, 103)) 100 [] 8).
  exists (demo_state false 0 [100; 101; 1000; 1000]
            (replicate 10 (406 # 4, 100, 103)) 100 [9] 9).
  exists (demo_state false 0 [100; 101; 1000; 1000]
            (replicate 10 (406 # 4, 100, 103) ++ replicate 9 (2201 # 4, 100, 1000))
            100 [9] 18).
  exists (demo_state false 0 [100; 101; 1000; 1000]
            (replicate 10 (406 # 4, 100, 103) ++ replicate 10 (2201 # 4, 100, 1000))
            100 [9; 19] 19).
  match goal with
  | |- ?G /\ _ => assert (H9 : G)
  end.
  { apply (after_generation (ops := demo_ops false 0)). vm_compute. reflexivity. }
  split; [exact H9|].
  match goal with
  | |- ?G /\ _ => assert (Hrestart : G) by (simpl; discriminate)
  end.
  split; [exact Hrestart|].
  match goal with
  | |- ?G /\ _ => assert (H18 : G)
  end.
  { eapply rtc_nsteps_2. apply (after_nsteps (ops := demo_ops false 0) _ _ 9).
    vm_compute. reflexivity. }
  split; [exact H18|].
  match goal with
  | |- ?G /\ _ => assert (H19 : G)
  end.
  { apply (after_generation (ops := demo_ops false 0)). vm_compute. reflexivity. }
  split; [exact H19|].
  match goal with
  | |- ?G /\ _ => assert (Hfired : G) by (vm_compute; reflexivity)
  end.
  split; [exact Hfired|]. split; [reflexivity|]. split; [reflexivity|].
  exact (restart_postpones_stagnation (ops := demo_ops false 0) tt
           (demo_parameters 130 4 (1 # 2)) _ _ _ _ H9 Hrestart H18 H19 Hfired).
Defined.

(** * Further properties of the earlier controller *)

Section LegacyRun.
Context `{legacy : Legacy.Ops}.
Variable flowshop : Flowshop.

Lemma legacy_while_loop_Some (fuel : nat) (s s' : Legacy.Locals) (w w' : World) :
  Legacy.while_loop fuel flowshop s w = Ok (Some s', w') ->
  exists n w1,
    nsteps (Legacy.generation flowshop) n (s, w) (s', w1) /\
    Legacy.loop_test s' w1 = Ok (false, w').
Proof.
  revert s w. induction fuel as [|fuel IH]; intros s w; simpl; [done|].
  intros Hrun. apply bind_Ok in Hrun as ([] & w1 & Ht & Hrun).
  - apply bind_Ok in Hrun as (s1 & w2 & Hi & Hrun).
    apply IH in Hrun as (n & w3 & Hsteps & Hstop).
    exists (S n), w3. split; [|done].
    eapply nsteps_l; [|exact Hsteps]. by exists w1.
  - apply ret_Ok in Hrun as [= -> ->].
    exists O, w. split; [constructor|done].
Qed.

(** X14. What the earlier controller returns: when its loop runs no generation,
    the schedule [Ordonnancement(flowshop.nombre_machines())] that it
    created at the start, which belongs to no population; otherwise a
    schedule of least duration of the last population. *)
Theorem legacy_memetic_heuristic_result (fuel : nat) (w w' : World) (best : Sched) :
  Legacy.memetic_heuristic fuel flowshop w = Ok (Some best, w') ->
  exists n c0 c,
    Legacy.prologue flowshop w = Ok c0 /\
    nsteps (Legacy.generation flowshop) n c0 c /\
    Legacy.loop_test c.1 c.2 = Ok (false, w') /\
    (n = O -> best = Legacy.Ordonnancement (Legacy.nombre_machines flowshop)) /\
    (n <> O ->
     best ∈ Legacy.population c.1 /\
     forall x, x ∈ Legacy.population c.1 -> duree best <= duree x).
Proof.
  unfold Legacy.memetic_heuristic. intros Hrun.
  apply bind_Ok in Hrun as (s0 & w0 & Hpro & Hrun).
  apply bind_Ok in Hrun as (res & w1 & Hloop & Hrun).
  apply ret_Ok in Hrun as [= Hres ->].
  destruct res as [s|]; [|done]. simpl in Hres. injection Hres as Hbest. subst best.
  apply legacy_while_loop_Some in Hloop as (n & w2 & Hsteps & Hstop).
  exists n, (s0, w0), (s, w2). split; [done|]. split; [done|]. split; [done|].
  split.
  - intros ->. inversion Hsteps; subst.
    unfold Legacy.prologue in Hpro.
    apply bind_Ok in Hpro as (t & u & _ & Hpro).
    apply bind_Ok in Hpro as (pop & u' & _ & Hpro).
    by apply ret_Ok in Hpro as [= -> _].
  - intros Hn. destruct n as [|n]; [done|].
    apply nsteps_inv_r in Hsteps as ([s1 w3] & _ & (w4 & _ & Hit)).
    simpl in Hit. apply legacy_iteration_Ok in Hit
      as (pop1 & u2 & pop2 & u3 & pop3 & u4 & b & _ & _ & _ & Hbest & _ & ->).
    simpl. apply legacy_find_best_spec in Hbest as [Hin Hall].
    split; [done|]. intros x Hx. by apply (proj1 (Forall_forall _ _) Hall).
Qed.

End LegacyRun.

Lemma legacy_memetic_heuristic_result_witness :
  Legacy.memetic_heuristic (ops := demo_legacy_ops 1) 5 tt 0%Q
  = Ok (Some 7, demo_clock 8) /\
  exists n c,
    nsteps (Legacy.generation (H0 := demo_legacy_ops 1) tt) n
      (demo_legacy_state 1 0 [5] 0) c /\
    (n <> O -> 7 ∈ Legacy.population c.1).
Proof.
  match goal with
  | |- ?G /\ _ => assert (Hrun : G) by (vm_compute; reflexivity)
  end.
  split; [exact Hrun|].
  destruct (legacy_memetic_heuristic_result (legacy := demo_legacy_ops 1) tt _ _ _ _ Hrun)
    as (n & c0 & c & Hpro & Hsteps & _ & _ & Hlast).
  exists n, c. split.
  - assert (Hc0 : Legacy.prologue (ops := demo_legacy_ops 1) tt 0%Q
                  = Ok (demo_legacy_state 1 0 [5] 0)) by (vm_compute; reflexivity).
    rewrite Hc0 in Hpro. injection Hpro as <-. exact Hsteps.
  - intros Hn. exact (proj1 (Hlast Hn)).
Defined.
